(** * Organizer views of pretalx: a shallow embedding of
    [src/pretalx/orga/views/event.py]

    The views are Django class-based views.  Each handler is embedded as a
    function in a small state-and-exception monad over the part of the world
    the handler touches: the [EventPermission] and [User] tables, the action
    log, the message storage of the request, the mail outbox, the task queue.
    What Django or another pretalx module provides (form validation results,
    the formset's object lists, [send_invite_email], the mail backend) enters
    as data of the request or as a field of an environment record. *)

From Stdlib Require Import ZArith Ascii String.
From stdpp Require Import gmap strings list fin_maps.

Local Open Scope string_scope.
Local Open Scope list_scope.
Local Open Scope nat_scope.

(** ** Python values used by the views *)

Module Py.

(** [str.isspace] on the code points below 256 (strings are modelled as
    sequences of Latin-1 code points). *)
Definition isspace (c : ascii) : bool :=
  let n := nat_of_ascii c in
  (((9 <=? n) && (n <=? 13)) || ((28 <=? n) && (n <=? 32))
   || (n =? 133) || (n =? 160))%nat.

Fixpoint lstrip (s : string) : string :=
  match s with
  | EmptyString => EmptyString
  | String c s' => if isspace c then lstrip s' else s
  end.

Definition reverse (s : string) : string :=
  string_of_list_ascii (rev (list_ascii_of_string s)).

Definition rstrip (s : string) : string := reverse (lstrip (reverse s)).

(** [s.strip()] *)
Definition strip (s : string) : string := rstrip (lstrip s).

(** ASCII lower-casing, as the database's case-insensitive match does. *)
Definition lower_ascii (c : ascii) : ascii :=
  let n := nat_of_ascii c in
  if ((65 <=? n) && (n <=? 90))%nat then ascii_of_nat (n + 32) else c.

Fixpoint lower (s : string) : string :=
  match s with
  | EmptyString => EmptyString
  | String c s' => String (lower_ascii c) (lower s')
  end.

(** The [__iexact] field lookup. *)
Definition iexact (a b : string) : bool := String.eqb (lower a) (lower b).

(** Truthiness of an optional string field ([None] and [''] are falsy). *)
Definition truthy_str (o : option string) : bool :=
  match o with
  | Some s => negb (String.eqb s "")
  | None => false
  end.

(** Truthiness of a primary key ([None] and [0] are falsy). *)
Definition truthy_pk (o : option nat) : bool :=
  match o with
  | Some (S _) => true
  | _ => false
  end.

(** [str(x)] for an optional string, as [str.format] renders it. *)
Definition str_of (o : option string) : string :=
  match o with
  | Some s => s
  | None => "None"
  end.

(** [QueryDict.get(key, default)]: the last value submitted for the key. *)
Fixpoint get (post : list (string * string)) (key : string) : option string :=
  match post with
  | [] => None
  | (k, v) :: rest =>
      match get rest key with
      | Some v' => Some v'
      | None => if String.eqb k key then Some v else None
      end
  end.

Definition get_default (post : list (string * string)) (key default : string)
  : string :=
  match get post key with
  | Some v => v
  | None => default
  end.

End Py.

(** ** Exceptions, responses, messages *)

Inductive Exn :=
| PermissionDenied
| Http404
| MultipleObjectsReturned
| AttributeError
| AssertionError
| ValueError
| Failure (msg : string).

Inductive outcome (A : Type) :=
| Ok (a : A)
| Raise (e : Exn).
Arguments Ok {A} a.
Arguments Raise {A} e.

Inductive Url :=
| url_event_base (event : nat)          (* event.urls.base *)
| url_orga_base (event : nat)           (* event.orga_urls.base *)
| url_settings (event : nat)            (* event.orga_urls.settings *)
| url_mail_settings (event : nat)       (* event.orga_urls.mail_settings *)
| url_team_settings (event : nat)       (* event.orga_urls.team_settings *)
| url_user_view.                        (* reverse('orga:user.view') *)

Inductive Response :=
| Redirect (to : Url)
| FormInvalid.                          (* the form re-rendered with errors *)

Inductive Level := Info | Success | Warning | Error.

Record Message := { level : Level; text : string }.

#[global] Instance Level_eq_dec : EqDecision Level.
Proof. solve_decision. Defined.
#[global] Instance Message_eq_dec : EqDecision Message.
Proof. solve_decision. Defined.
#[global] Instance Url_eq_dec : EqDecision Url.
Proof. solve_decision. Defined.

(** [QuerySet.first()]: the row with the smallest primary key. *)
Definition first {A} (m : gmap nat A) : option (nat * A) :=
  foldr (λ kv acc,
           match acc with
           | Some kv' => if decide (kv'.1 < kv.1) then Some kv' else Some kv
           | None => Some kv
           end) None (map_to_list m).

(** ** The monad of a request handler

    A handler transforms the state [S] it works on and either returns a value
    or raises. *)

Definition M (S A : Type) : Type := S → outcome A * S.

Definition ret {S A} (a : A) : M S A := λ w, (Ok a, w).
Definition bind {S A B} (m : M S A) (k : A → M S B) : M S B :=
  λ w, match m w with
       | (Ok a, w') => k a w'
       | (Raise e, w') => (Raise e, w')
       end.
Definition raise {S A} (e : Exn) : M S A := λ w, (Raise e, w).
Definition gets {S A} (f : S → A) : M S A := λ w, (Ok (f w), w).
Definition modify {S} (f : S → S) : M S unit := λ w, (Ok tt, f w).

Notation "x <- m ;; k" := (bind m (λ x, k))
  (at level 100, m at next level, k at level 200, right associativity).
Notation "m ;;; k" := (bind m (λ _, k))
  (at level 100, k at level 200, right associativity).

(** [for x in xs: body(x)] *)
Fixpoint for_each {S A} (body : A → M S unit) (xs : list A) : M S unit :=
  match xs with
  | [] => ret tt
  | x :: rest => body x ;;; for_each body rest
  end.

(** ** The team: [EventTeam] and [InvitationView] *)

Module Team.

Record User := {
  nick : string;
  email : string;
  is_administrator : bool }.

(** A row of the [EventPermission] table; the primary key is the key of
    the table. *)
Record EventPermission := {
  event : nat;
  user : option nat;
  is_orga : bool;
  is_reviewer : bool;
  review_override_count : Z;
  invitation_token : option string;
  invitation_email : option string }.

(** A model instance in memory: [pk] is [None] until it is first saved. *)
Record PermObj := { pk : option nat; row : EventPermission }.

Definition set_user (u : option nat) (r : EventPermission) :=
  {| event := event r; user := u; is_orga := is_orga r;
     is_reviewer := is_reviewer r;
     review_override_count := review_override_count r;
     invitation_token := invitation_token r;
     invitation_email := invitation_email r |}.
Definition set_is_orga (b : bool) (r : EventPermission) :=
  {| event := event r; user := user r; is_orga := b;
     is_reviewer := is_reviewer r;
     review_override_count := review_override_count r;
     invitation_token := invitation_token r;
     invitation_email := invitation_email r |}.
Definition set_is_reviewer (b : bool) (r : EventPermission) :=
  {| event := event r; user := user r; is_orga := is_orga r;
     is_reviewer := b;
     review_override_count := review_override_count r;
     invitation_token := invitation_token r;
     invitation_email := invitation_email r |}.
Definition set_invitation_token (t : option string) (r : EventPermission) :=
  {| event := event r; user := user r; is_orga := is_orga r;
     is_reviewer := is_reviewer r;
     review_override_count := review_override_count r;
     invitation_token := t;
     invitation_email := invitation_email r |}.
Definition set_invitation_email (e : option string) (r : EventPermission) :=
  {| event := event r; user := user r; is_orga := is_orga r;
     is_reviewer := is_reviewer r;
     review_override_count := review_override_count r;
     invitation_token := invitation_token r;
     invitation_email := e |}.
Definition with_row (f : EventPermission → EventPermission) (p : PermObj) :=
  {| pk := pk p; row := f (row p) |}.

(** The mail object [send_invite_email] returns: built from the permission
    as it is when the mail is built. *)
Record Mail := { invite_for : PermObj }.

Record World := {
  permissions : gmap nat EventPermission;   (* EventPermission.objects *)
  next_pk : nat;                            (* the table's id sequence *)
  users : gmap nat User;                    (* User.objects *)
  actions : list (string * nat);            (* log_action(name, person) *)
  messages : list Message;                  (* django.contrib.messages *)
  outbox : list Mail;                       (* mails handed to send() *)
  session : option nat }.                   (* the logged-in user *)

Definition upd_permissions (f : gmap nat EventPermission → gmap nat EventPermission)
    (w : World) : World :=
  {| permissions := f (permissions w); next_pk := next_pk w;
     users := users w; actions := actions w; messages := messages w;
     outbox := outbox w; session := session w |}.
Definition upd_next_pk (n : nat) (w : World) : World :=
  {| permissions := permissions w; next_pk := n;
     users := users w; actions := actions w; messages := messages w;
     outbox := outbox w; session := session w |}.
Definition upd_users (us : gmap nat User) (w : World) : World :=
  {| permissions := permissions w; next_pk := next_pk w;
     users := us; actions := actions w; messages := messages w;
     outbox := outbox w; session := session w |}.
Definition upd_actions (a : list (string * nat)) (w : World) : World :=
  {| permissions := permissions w; next_pk := next_pk w;
     users := users w; actions := a; messages := messages w;
     outbox := outbox w; session := session w |}.
Definition upd_messages (ms : list Message) (w : World) : World :=
  {| permissions := permissions w; next_pk := next_pk w;
     users := users w; actions := actions w; messages := ms;
     outbox := outbox w; session := session w |}.
Definition upd_outbox (o : list Mail) (w : World) : World :=
  {| permissions := permissions w; next_pk := next_pk w;
     users := users w; actions := actions w; messages := messages w;
     outbox := o; session := session w |}.
Definition upd_session (s : option nat) (w : World) : World :=
  {| permissions := permissions w; next_pk := next_pk w;
     users := users w; actions := actions w; messages := messages w;
     outbox := outbox w; session := s |}.

(** [@transaction.atomic]: when the handler raises, the tables are rolled
    back to what they were on entry and the exception propagates; what is
    not in the database (messages, mails already sent, the id sequence)
    stays. *)
Definition rollback (w0 w : World) : World :=
  {| permissions := permissions w0; next_pk := next_pk w;
     users := users w0; actions := actions w0; messages := messages w;
     outbox := outbox w; session := session w |}.

Definition atomic {A} (m : M World A) : M World A :=
  λ w, match m w with
       | (Ok a, w') => (Ok a, w')
       | (Raise e, w') => (Raise e, rollback w w')
       end.

(** *** Model operations *)

(** [messages.success(request, text)] and its siblings. *)
Definition add_message (l : Level) (t : string) : M World unit :=
  modify (λ w, upd_messages (messages w ++ [{| level := l; text := t |}]) w).

(** [x.log_action(name, person=..., orga=True)] *)
Definition log_action (name : string) (person : nat) : M World unit :=
  modify (λ w, upd_actions (actions w ++ [(name, person)]) w).

(** [permission.save()]: an instance without a primary key is inserted
    under the next id of the sequence, one with a key overwrites (or
    creates) the row under that key. *)
Definition save (p : PermObj) : M World PermObj :=
  λ w, match pk p with
       | Some k => (Ok p, upd_permissions (insert k (row p)) w)
       | None =>
           let k := next_pk w in
           (Ok {| pk := Some k; row := row p |},
            upd_next_pk (S k) (upd_permissions (insert k (row p)) w))
       end.

(** [permission.delete()]; Django asserts that the instance has a key. *)
Definition delete_obj (p : PermObj) : M World unit :=
  match pk p with
  | Some k => modify (upd_permissions (delete k))
  | None => raise AssertionError
  end.

(** External collaborators of the views. *)
Record Env := {
  error_saving_changes : string;        (* phrases.base.error_saving_changes *)
  draw_token : PermObj → string;        (* the random token of an invitation *)
  invite_error : PermObj → option string; (* send_invite_email() raising *)
  send_error : Mail → option string }.    (* mail.send() raising *)

(** A request to the team settings of an event. *)
Record Request := {
  req_user : nat;                       (* request.user *)
  req_event : nat }.                    (* request.event *)

(** A request to the invitation page.  Its route names no event, so the
    request carries one only if something else has set it. *)
Record InvitationRequest := {
  inv_event : option nat }.             (* request.event, when set *)

(** What [self.formset] exposes after validation and [save(commit=False)].
    Django keeps the instances of the new and of the deleted forms, and for
    every changed form the pair of its instance and the names of the changed
    fields. *)
Record Formset := {
  fs_is_valid : bool;
  new_objects : list PermObj;
  changed_objects : list (PermObj * list string);
  deleted_objects : list PermObj }.

(** [formset.save(commit=False)] returns the changed instances followed by
    the new ones, none of them written yet. *)
Definition formset_save (fs : Formset) : list PermObj :=
  map fst (changed_objects fs) ++ new_objects fs.

(** [p.is_orga] for a member [p] of one of the formset's lists: an instance
    has the attribute, a pair has not. *)
Definition instance_is_orga (p : PermObj) : outcome bool :=
  Ok (is_orga (row p)).
Definition pair_is_orga (p : PermObj * list string) : outcome bool :=
  Raise AttributeError.

(** The bound [UserForm]: [save()] logs an existing user in or registers a
    new one, and leaves the user's id in [cleaned_data]. *)
Record UserForm := {
  save_form : gmap nat User → gmap nat User * option nat }.

Section Views.
Context (env : Env).

(** Modelled from the spec: [EventPermission.send_invite_email] is a method
    of the model, which is not among the sources.  As its caller and the test
    [test_invite_orga_member] show it: for a permission without user it draws
    the invitation token and saves the permission, so that the invitation is
    in the table under its token; for a permission bound to a user it writes
    nothing; in both cases it returns the mail, unsent, built from the
    permission as it then is.  The instance is changed in place, so it is
    handed back with the mail. *)
Definition send_invite_email (p : PermObj) : M World (PermObj * Mail) :=
  p <- match user (row p) with
       | Some _ => ret p
       | None => save (with_row (set_invitation_token (Some (draw_token env p))) p)
       end ;;
  match invite_error env p with
  | Some msg => raise (Failure msg)
  | None => ret (p, {| invite_for := p |})
  end.

(** [mail.send()] *)
Definition send (m : Mail) : M World unit :=
  match send_error env m with
  | Some msg => raise (Failure msg)
  | None => modify (λ w, upd_outbox (outbox w ++ [m]) w)
  end.

(** [EventTeam._find_user] *)
Definition _find_user (email_ : string) : M World (option nat) :=
  gets (λ w,
    match first (filter (λ kv, nick kv.2 = email_) (users w)) with
    | Some (k, _) => Some k
    | None =>
        match first (filter (λ kv, email kv.2 = email_) (users w)) with
        | Some (k, _) => Some k
        | None => None
        end
    end).

(** [EventTeam._count_orga_permissions]: the comprehension reads [is_orga]
    off every member in turn, through [is_orga_of], and stops at the first
    member without that attribute. *)
Fixpoint _count_orga_permissions {A} (is_orga_of : A → outcome bool)
    (permissions : list A) : outcome nat :=
  match permissions with
  | [] => Ok 0
  | p :: rest =>
      match is_orga_of p with
      | Raise e => Raise e
      | Ok b =>
          match _count_orga_permissions is_orga_of rest with
          | Ok n => Ok (if b then S n else n)
          | Raise e => Raise e
          end
      end
  end.

(** [EventTeam.has_remaining_team]: [changed_objects] holds pairs, so the
    count over it raises [AttributeError] unless it is empty. *)
Definition has_remaining_team (fs : Formset) : outcome bool :=
  match _count_orga_permissions instance_is_orga (new_objects fs) with
  | Raise e => Raise e
  | Ok added =>
      match _count_orga_permissions pair_is_orga (changed_objects fs) with
      | Raise e => Raise e
      | Ok changed =>
          match _count_orga_permissions instance_is_orga (deleted_objects fs) with
          | Raise e => Raise e
          | Ok deleted =>
              Ok (Z.of_nat added + Z.of_nat changed - Z.of_nat deleted >? 0)%Z
          end
      end
  end.

Definition lonely_event : string :=
  "That would be a pretty lonely event. You can't remove the last remaining team member.".

Definition invited_text (email_ : option string) : string :=
  "<" +:+ Py.str_of email_ +:+
  "> has been invited to your team - more team members help distribute the workload, so … yay!".

(** The body of the first loop over [permissions] (lines 213-228); the
    instance is mutated in place, so the loop hands it on. *)
Definition invite_and_save (request : Request) (permission : PermObj)
  : M World (PermObj * list Mail) :=
  if Py.truthy_str (invitation_email (row permission)) then
    u <- _find_user (default "" (invitation_email (row permission))) ;;
    let permission :=
      match u with
      | Some _ =>
          with_row (λ r, set_invitation_token None
                           (set_invitation_email None (set_user u r)))
                   permission
      | None => permission
      end in
    sent <- send_invite_email permission ;;
    let permission := sent.1 in
    log_action "pretalx.invite.orga.send" (req_user request) ;;;
    add_message Success (invited_text (invitation_email (row permission))) ;;;
    permission <- save permission ;;
    ret (permission, [sent.2])
  else
    permission <- save permission ;;
    ret (permission, []).

Fixpoint invite_and_save_all (request : Request) (ps : list PermObj)
  : M World (list PermObj * list Mail) :=
  match ps with
  | [] => ret ([], [])
  | p :: rest =>
      r <- invite_and_save request p ;;
      rs <- invite_and_save_all request rest ;;
      ret (r.1 :: rs.1, r.2 ++ rs.2)
  end.

(** The body of the second loop (lines 230-235): every other row of the
    same event and user goes. *)
Definition is_duplicate_of (permission : PermObj)
    (kv : nat * EventPermission) : bool :=
  bool_decide (event kv.2 = event (row permission))
  && bool_decide (user kv.2 = user (row permission))
  && negb (bool_decide (Some kv.1 = pk permission)).

Definition delete_duplicates (permission : PermObj) : M World unit :=
  match user (row permission) with
  | Some _ =>
      modify (upd_permissions
                (filter (λ kv, is_duplicate_of permission kv = false)))
  | None => ret tt
  end.

(** [EventTeam.post] without its decorator. *)
Definition post_body (request : Request) (formset : Formset) : M World Response :=
  if negb (fs_is_valid formset) then
    add_message Error (error_saving_changes env) ;;;
    ret (Redirect (url_team_settings (req_event request)))
  else
    let permissions := formset_save formset in
    remaining <- (λ w, (has_remaining_team formset, w)) ;;
    if negb remaining then
      add_message Error lonely_event ;;;
      ret (Redirect (url_team_settings (req_event request)))
    else
      for_each delete_obj (deleted_objects formset) ;;;
      saved <- invite_and_save_all request permissions ;;
      for_each delete_duplicates saved.1 ;;;
      for_each send saved.2 ;;;
      ret (Redirect (url_team_settings (req_event request))).

(** [EventTeam.post] *)
Definition post (request : Request) (formset : Formset) : M World Response :=
  atomic (post_body request formset).

(** *** [InvitationView] *)

Definition is_open_invitation (code : string)
    (kv : nat * EventPermission) : bool :=
  match invitation_token kv.2 with
  | Some t => Py.iexact t code
  | None => false
  end
  && bool_decide (user kv.2 = None).

(** [get_object_or_404] over the rows a filter selects: 404 when there
    is none, [MultipleObjectsReturned] passes through when there are
    several. *)
Definition get_object_or_404 (matching : gmap nat EventPermission)
  : outcome PermObj :=
  match map_to_list matching with
  | [] => Raise Http404
  | [(k, r)] => Ok {| pk := Some k; row := r |}
  | _ => Raise MultipleObjectsReturned
  end.

(** [InvitationView.object] *)
Definition object (code : string) : M World PermObj :=
  λ w, (get_object_or_404
          (filter (λ kv, is_open_invitation code kv = true)
                  (permissions w)), w).

Definition is_other_permission (u : nat) (permission : PermObj)
    (kv : nat * EventPermission) : bool :=
  bool_decide (user kv.2 = Some u)
  && bool_decide (event kv.2 = event (row permission))
  && negb (bool_decide (Some kv.1 = pk permission)).

Definition auth_problem : string :=
  "There was a problem with your authentication. Please contact the organiser for further help.".
Definition now_part_of_team : string :=
  "You are now part of the event team!".

(** [InvitationView.form_valid] *)
Definition form_valid (request : InvitationRequest) (code : string)
    (form : UserForm) : M World Response :=
  user_id <- (λ w, let r := save_form form (users w) in
                   (Ok r.2, upd_users r.1 w)) ;;
  permission <- object code ;;
  found <- gets (λ w, match user_id with
                      | Some i => match users w !! i with
                                  | Some _ => Some i
                                  | None => None
                                  end
                      | None => None
                      end) ;;
  match found with
  | None =>
      add_message Error auth_problem ;;;
      match inv_event request with
      | Some e => ret (Redirect (url_event_base e))
      | None => raise AttributeError
      end
  | Some u =>
      perm <- gets (λ w, first (filter
               (λ kv, is_other_permission u permission kv = true)
               (permissions w))) ;;
      let event_ := event (row permission) in
      permission <-
        match perm with
        | Some (k, r) =>
            let perm := {| pk := Some k; row := r |} in
            let perm := if is_orga (row permission)
                        then with_row (set_is_orga true) perm else perm in
            let perm := if is_reviewer (row permission)
                        then with_row (set_is_reviewer true) perm else perm in
            perm <- save perm ;;
            delete_obj permission ;;;
            ret perm
        | None => ret permission
        end ;;
      let permission := with_row (set_user (Some u)) permission in
      permission <- save permission ;;
      log_action "pretalx.invite.orga.accept" u ;;;
      add_message Info now_part_of_team ;;;
      modify (upd_session (Some u)) ;;;
      ret (Redirect (url_orga_base event_))
  end.

(** The instances of [permissions] as the first loop leaves them (bound to
    their user, with their key), on a POST that gets that far. *)
Definition saved_instances (request : Request) (formset : Formset) (w : World)
  : list PermObj :=
  match (for_each delete_obj (deleted_objects formset) ;;;
         invite_and_save_all request (formset_save formset)) w with
  | (Ok saved, _) => saved.1
  | (Raise _, _) => []
  end.

End Views.

(** *** Vocabulary of the statements about the permission table *)

(** The permissions a user holds for an event. *)
Definition held_by (e u : nat) (tbl : gmap nat EventPermission)
  : gmap nat EventPermission :=
  filter (λ kv, event kv.2 = e ∧ user kv.2 = Some u) tbl.

(** The organizer permissions of an event. *)
Definition organizers (e : nat) (tbl : gmap nat EventPermission)
  : gmap nat EventPermission :=
  filter (λ kv, event kv.2 = e ∧ is_orga kv.2 = true) tbl.

(** What [InvitationView.form_valid] makes of the permission [Q] the
    accepting user already holds, given the invitation [P]. *)
Definition merged_permission (P Q : EventPermission) : EventPermission :=
  let Q := if is_orga P then set_is_orga true Q else Q in
  if is_reviewer P then set_is_reviewer true Q else Q.

(** The invitations a code resolves to: the rows [InvitationView.object]
    selects from. *)
Definition open_invitations (code : string) (tbl : gmap nat EventPermission)
  : gmap nat EventPermission :=
  filter (λ kv, is_open_invitation code kv = true) tbl.

(** Whether a submitted permission carries an invitation address, as the
    first loop of [EventTeam.post] tests it. *)
Definition carries_invitation (p : PermObj) : bool :=
  Py.truthy_str (invitation_email (row p)).

(** A permission as the first loop leaves it once [_find_user] has found the
    user [u]: bound to [u], its invitation address and token cleared. *)
Definition bound_to (u : nat) (p : PermObj) : PermObj :=
  with_row (λ r, set_invitation_token None
                   (set_invitation_email None (set_user (Some u) r))) p.

(** A handler that leaves the user accounts and the login of the session as
    they are, however it ends. *)
Definition leaves_accounts {A} (m : M World A) : Prop :=
  ∀ w, users (m w).2 = users w ∧ session (m w).2 = session w.

(** A saved instance makes the row [kv] a duplicate to delete. *)
Definition duplicate_of_some (saved : list PermObj)
    (kv : nat * EventPermission) : bool :=
  existsb (λ p, match user (row p) with
                | Some _ => is_duplicate_of p kv
                | None => false
                end) saved.

(** No saved instance is a duplicate the second loop deletes on behalf of
    another saved instance. *)
Definition no_mutual_duplicates (saved : list PermObj) : bool :=
  forallb (λ p, match pk p with
                | Some k => negb (duplicate_of_some saved (k, row p))
                | None => true
                end) saved.

End Team.

(** ** [EventDetail]: creating and editing an event *)

Module EventDetail.

Inductive Action := create | edit | view.

(** The columns of an event the form writes. *)
Record Event := { slug : string; name : string }.

Record EventForm := {
  instance_pk : option nat;             (* form.instance.pk *)
  cleaned : Event }.

Record Request := {
  kwargs_event : option string;         (* self.kwargs.get('event') *)
  req_event : option nat;               (* request.event, when set *)
  user_pk : nat;
  is_anonymous : bool;
  is_administrator : bool;
  can_change_settings : bool;           (* user.has_perm('orga.change_settings', object) *)
  sform_is_valid : bool }.              (* validation of the settings form *)

Inductive Text :=
| new_event_text (cfp_url : nat)        (* 'Yay, a new event! ...' *)
| settings_saved_text.                  (* 'The event settings have been saved.' *)

(** What the handler does to the outside, in the order it does it. *)
Inductive Effect :=
| SavedForm (pk : nat)                  (* super().form_valid(form) *)
| SavedSettings (pk : nat)              (* self.sform.save() *)
| Messaged (l : Level) (t : Text)
| Logged (action : string) (person : nat)
| CreatedPermission (event user : nat) (is_orga : bool)
| Dispatched (pk : nat).                (* regenerate_css.apply_async(args=(pk,)) *)

Record World := {
  events : gmap nat Event;              (* Event.objects *)
  next_event_pk : nat;
  trace : list Effect }.

Definition emit (e : Effect) : M World unit :=
  modify (λ w, {| events := events w; next_event_pk := next_event_pk w;
                  trace := trace w ++ [e] |}).

(** [EventDetail._action] *)
Definition _action (request : Request) : Action :=
  match kwargs_event request with
  | None => create
  | Some _ => if can_change_settings request then edit else view
  end.

(** [EventDetail.dispatch]; [super_dispatch] is the generic view's
    dispatch, which runs the handler of the HTTP method. *)
Definition dispatch (super_dispatch : M World Response) (request : Request)
  : M World Response :=
  match _action request with
  | create =>
      if negb (is_anonymous request) && negb (is_administrator request)
      then raise PermissionDenied
      else super_dispatch
  | _ =>
      if negb (can_change_settings request)
      then raise PermissionDenied
      else super_dispatch
  end.

(** [EventDetail.sform]: [None] when the request carries no event. *)
Definition sform (request : Request) : option (nat * bool) :=
  match req_event request with
  | Some e => Some (e, sform_is_valid request)
  | None => None
  end.

(** [super().form_valid(form)]: the model form is saved (an instance
    without a key is inserted under the next id) and the response redirects
    to the success url, the settings page of the saved event. *)
Definition super_form_valid (form : EventForm) : M World (Response * nat) :=
  λ w,
    let k := match instance_pk form with
             | Some k => k
             | None => next_event_pk w
             end in
    (Ok (Redirect (url_settings k), k),
     {| events := <[k := cleaned form]> (events w);
        next_event_pk := match instance_pk form with
                         | Some _ => next_event_pk w
                         | None => S k
                         end;
        trace := trace w ++ [SavedForm k] |}).

(** [x.log_action(name, person=request.user, orga=True)]: the log entry
    refers to a user; the anonymous user is none, and Django raises
    [ValueError] when the entry is built for it. *)
Definition log_action (request : Request) (name : string) : M World unit :=
  if is_anonymous request then raise ValueError
  else emit (Logged name (user_pk request)).

(** [EventPermission.objects.create(event=..., user=request.user,
    is_orga=True)], which needs a user in the same way. *)
Definition create_permission (request : Request) (event : nat) : M World unit :=
  if is_anonymous request then raise ValueError
  else emit (CreatedPermission event (user_pk request) true).

(** [EventDetail.form_valid] *)
Definition form_valid (request : Request) (form : EventForm)
  : M World Response :=
  let new_event := negb (Py.truthy_pk (instance_pk form)) in
  let continue : M World Response :=
    r <- super_form_valid form ;;
    (if new_event then
       emit (Messaged Success (new_event_text r.2)) ;;;
       log_action request "pretalx.event.create" ;;;
       create_permission request r.2
     else
       match sform request with
       | Some (e, _) =>
           emit (SavedSettings e) ;;;
           log_action request "pretalx.event.update" ;;;
           emit (Messaged Success settings_saved_text)
       | None => raise AttributeError
       end) ;;;
    emit (Dispatched r.2) ;;;
    ret r.1 in
  if negb new_event then
    match sform request with
    | Some (_, valid) => if negb valid then ret FormInvalid else continue
    | None => raise AttributeError
    end
  else continue.

Definition is_dispatch (e : Effect) : bool :=
  match e with
  | Dispatched _ => true
  | _ => false
  end.

End EventDetail.

(** ** [EventMailSettings]: the mail configuration and its test *)

Module EventMailSettings.

(** [event.settings], as far as the mail form writes it. *)
Record Settings := {
  mail_from : string;
  smtp_host : string;
  smtp_port : Z;
  smtp_use_custom : bool }.

Record Request := {
  req_event : nat;
  POST : list (string * string) }.

Inductive Text :=
| smtp_error_text (e : string)   (* 'An error occured while contacting the SMTP server: %s' *)
| saved_and_connected_text       (* 'Yay, your changes have been saved and the connection attempt ...' *)
| contacted_but_unused_text      (* 'We've been able to contact the SMTP server you configured. ...' *)
| saved_text.                    (* 'Yay! We saved your changes.' *)

Inductive Effect :=
| SavedSettings (s : Settings)                  (* form.save() *)
| TestMail (force_custom : bool) (to : string)  (* backend.test(...) *)
| Messaged (l : Level) (t : Text).

Record World := {
  settings : Settings;
  trace : list Effect }.

(** The mail backend: what [backend.test(to)] raises, if anything, under
    the settings in force. *)
Record Backend := { test_error : Settings → string → option string }.

Definition emit (e : Effect) : M World unit :=
  modify (λ w, {| settings := settings w; trace := trace w ++ [e] |}).

(** [form.save()]: the cleaned data becomes the event's settings. *)
Definition save (form : Settings) : M World unit :=
  modify (λ w, {| settings := form; trace := trace w ++ [SavedSettings form] |}).

(** [backend.test(to)] on the backend of [get_mail_backend(force_custom=True)] *)
Definition test (backend : Backend) (to : string) : M World (option string) :=
  emit (TestMail true to) ;;;
  gets (λ w, test_error backend (settings w) to).

Definition wants_test (request : Request) : bool :=
  String.eqb (Py.strip (Py.get_default (POST request) "test" "0")) "1".

(** [EventMailSettings.form_valid] *)
Definition form_valid (backend : Backend) (request : Request) (form : Settings)
  : M World Response :=
  save form ;;;
  if wants_test request then
    to <- gets (λ w, mail_from (settings w)) ;;
    err <- test backend to ;;
    match err with
    | Some e =>
        emit (Messaged Warning (smtp_error_text e)) ;;;
        ret (Redirect (url_mail_settings (req_event request)))
    | None =>
        (if smtp_use_custom form
         then emit (Messaged Success saved_and_connected_text)
         else emit (Messaged Success contacted_but_unused_text)) ;;;
        ret (Redirect (url_mail_settings (req_event request)))
    end
  else
    emit (Messaged Success saved_text) ;;;
    ret (Redirect (url_mail_settings (req_event request))).

Definition is_test (e : Effect) : bool :=
  match e with
  | TestMail _ _ => true
  | _ => false
  end.

End EventMailSettings.

(** ** [UserSettings]: password, profile and API token *)

Module UserSettings.

Record Request := {
  method : string;
  POST : list (string * string);
  login_data_valid : bool;       (* LoginInfoForm validates the POST data *)
  profile_data_valid : bool }.   (* OrgaProfileForm validates the POST data *)

Record Form := { is_bound : bool; is_valid : bool }.

Inductive Text :=
| changes_saved_text             (* 'Your changes have been saved.' *)
| token_regenerated_text         (* 'Your API token has been regenerated. ...' *)
| trouble_saving_text.           (* 'Oh :( We had trouble saving your input. ...' *)

Inductive Effect :=
| SavedLoginForm
| SavedProfileForm
| RegeneratedToken
| Logged (action : string)
| Messaged (l : Level) (t : Text).

#[global] Instance Text_eq_dec : EqDecision Text.
Proof. solve_decision. Defined.
#[global] Instance Effect_eq_dec : EqDecision Effect.
Proof. solve_decision. Defined.

Definition World := list Effect.

Definition emit (e : Effect) : M World unit := modify (λ w, w ++ [e]).

(** A form bound to no data never validates. *)
Definition make_form (bind_ : bool) (data_valid : bool) : Form :=
  {| is_bound := bind_; is_valid := bind_ && data_valid |}.

(** [UserSettings.login_form] *)
Definition login_form (request : Request) : Form :=
  let bind_ := String.eqb (method request) "POST"
               && bool_decide (Py.get (POST request) "action" = Some "login") in
  make_form bind_ (login_data_valid request).

(** [UserSettings.profile_form] *)
Definition profile_form (request : Request) : Form :=
  let bind_ := String.eqb (method request) "POST"
               && bool_decide (Py.get (POST request) "action" = Some "profile") in
  make_form bind_ (profile_data_valid request).

(** [UserSettings.post] *)
Definition post (request : Request) : M World Response :=
  (if is_bound (login_form request) && is_valid (login_form request) then
     emit SavedLoginForm ;;;
     emit (Messaged Success changes_saved_text) ;;;
     emit (Logged "pretalx.user.password.update")
   else if is_bound (profile_form request) && is_valid (profile_form request) then
     emit SavedProfileForm ;;;
     emit (Messaged Success changes_saved_text) ;;;
     emit (Logged "pretalx.user.profile.update")
   else if bool_decide (Py.get (POST request) "form" = Some "token") then
     emit RegeneratedToken ;;;
     emit (Messaged Success token_regenerated_text)
   else
     emit (Messaged Error trouble_saving_text)) ;;;
  ret (Redirect url_user_view).

(** What the POST does, by the first condition that holds. *)
Definition user_post_effects (request : Request) : list Effect :=
  if is_bound (login_form request) && is_valid (login_form request) then
    [SavedLoginForm; Messaged Success changes_saved_text;
     Logged "pretalx.user.password.update"]
  else if is_bound (profile_form request) && is_valid (profile_form request) then
    [SavedProfileForm; Messaged Success changes_saved_text;
     Logged "pretalx.user.profile.update"]
  else if bool_decide (Py.get (POST request) "form" = Some "token") then
    [RegeneratedToken; Messaged Success token_regenerated_text]
  else [Messaged Error trouble_saving_text].

(** The four things a POST can do. *)
Inductive Did := did_login | did_profile | did_token | did_error.

Definition did (e : Effect) : option Did :=
  match e with
  | SavedLoginForm => Some did_login
  | SavedProfileForm => Some did_profile
  | RegeneratedToken => Some did_token
  | Messaged Error _ => Some did_error
  | _ => None
  end.

End UserSettings.

(** ** [UserSettings.get_context_data]: the API token of the page *)

Module UserContext.

(** The state is the token table of [rest_framework.authtoken], from user to
    key: the user is a one-to-one field, so the table holds at most one key
    per user. *)

Record Context := {
  token : string;                       (* ctx['token'] *)
  login_form : UserSettings.Form;       (* ctx['login_form'] *)
  profile_form : UserSettings.Form }.   (* ctx['profile_form'] *)

(** [Token.objects.filter(user=user).first() or Token.objects.create(user=user)];
    [fresh_key] is the key a created token generates for itself. *)
Definition first_or_create (fresh_key : string) (user : nat)
  : M (gmap nat string) string :=
  λ tokens, match tokens !! user with
            | Some key => (Ok key, tokens)
            | None => (Ok fresh_key, <[user := fresh_key]> tokens)
            end.

(** [UserSettings.get_context_data] *)
Definition get_context_data (fresh_key : string) (user : nat)
    (request : UserSettings.Request) : M (gmap nat string) Context :=
  t <- first_or_create fresh_key user ;;
  ret {| token := t;
         login_form := UserSettings.login_form request;
         profile_form := UserSettings.profile_form request |}.

End UserContext.

(** * Sample requests

    Concrete worlds and requests on which the handlers are run. *)

Module Sample.
Import Team.

Definition quiet_env : Env :=
  {| error_saving_changes := "Oh :( We had trouble saving your input.";
     draw_token := λ p, "drawn" +:+ default "" (invitation_email (row p));
     invite_error := λ _, None;
     send_error := λ _, None |}.

(** An environment whose mail server is down: every [mail.send()] raises. *)
Definition smtp_down_env : Env :=
  {| error_saving_changes := "Oh :( We had trouble saving your input.";
     draw_token := λ p, "drawn" +:+ default "" (invitation_email (row p));
     invite_error := λ _, None;
     send_error := λ _, Some "connection refused" |}.

Definition alice : User :=
  {| nick := "alice"; email := "alice@example.org"; is_administrator := false |}.
Definition bob : User :=
  {| nick := "bob"; email := "bob@example.org"; is_administrator := false |}.

(** Alice's organizer permission for event 1. *)
Definition alice_orga : EventPermission :=
  {| event := 1; user := Some 1; is_orga := true; is_reviewer := false;
     review_override_count := 0; invitation_token := None;
     invitation_email := None |}.

(** Event 1 with alice as its only organizer; bob has an account. *)
Definition world0 : World :=
  {| permissions := {[ 1 := alice_orga ]}; next_pk := 2;
     users := {[ 1 := alice; 2 := bob ]};
     actions := []; messages := []; outbox := []; session := None |}.

Definition request0 : Request := {| req_user := 1; req_event := 1 |}.

(** A new form row inviting [address] as an organizer. *)
Definition invitation (address token : string) : PermObj :=
  {| pk := None;
     row := {| event := 1; user := None; is_orga := true; is_reviewer := false;
               review_override_count := 0; invitation_token := Some token;
               invitation_email := Some address |} |}.

(** Alice removes her own row and invites bob, by his address, in two rows
    of the form. *)
Definition formset_replace : Formset :=
  {| fs_is_valid := true;
     new_objects := [invitation "bob@example.org" "tokenone";
                     invitation "bob@example.org" "tokentwo"];
     changed_objects := [];
     deleted_objects := [ {| pk := Some 1; row := alice_orga |} ] |}.

(** Alice invites bob, who has an account, by his address. *)
Definition formset_invite_bob : Formset :=
  {| fs_is_valid := true;
     new_objects := [invitation "bob@example.org" "tokenone"];
     changed_objects := [];
     deleted_objects := [] |}.

(** Alice invites carol, who has no account. *)
Definition formset_invite_carol : Formset :=
  {| fs_is_valid := true;
     new_objects := [invitation "carol@example.org" "tokenone"];
     changed_objects := [];
     deleted_objects := [] |}.

(** The same submission, rejected by form validation. *)
Definition formset_invalid : Formset :=
  {| fs_is_valid := false;
     new_objects := [];
     changed_objects := [];
     deleted_objects := [] |}.

(** Bob's reviewer permission for event 1. *)
Definition bob_reviewer : EventPermission :=
  {| event := 1; user := Some 2; is_orga := false; is_reviewer := true;
     review_override_count := 0; invitation_token := None;
     invitation_email := None |}.

(** Event 1 with alice as organizer and bob as reviewer. *)
Definition world_review : World :=
  {| permissions := {[ 1 := alice_orga; 2 := bob_reviewer ]}; next_pk := 3;
     users := {[ 1 := alice; 2 := bob ]};
     actions := []; messages := []; outbox := []; session := None |}.

(** An invitation to organize event 1 that nobody has accepted yet. *)
Definition pending : EventPermission :=
  row (invitation "dave@example.org" "TokenOne").

(** Event 1 with alice as organizer, bob as reviewer and the pending
    invitation. *)
Definition world_invited : World :=
  {| permissions := {[ 1 := alice_orga; 2 := bob_reviewer; 3 := pending ]};
     next_pk := 4;
     users := {[ 1 := alice; 2 := bob ]};
     actions := []; messages := []; outbox := []; session := None |}.

(** Bob logs in on the invitation page. *)
Definition bob_logs_in : UserForm := {| save_form := λ us, (us, Some 2) |}.

(** Dave registers on the invitation page. *)
Definition dave : User :=
  {| nick := "dave"; email := "dave@example.org"; is_administrator := false |}.
Definition dave_registers : UserForm :=
  {| save_form := λ us, (<[3 := dave]> us, Some 3) |}.

(** An organizer without administrator rights asks for the creation page. *)
Definition orga_creates : EventDetail.Request :=
  {| EventDetail.kwargs_event := None;
     EventDetail.req_event := None;
     EventDetail.user_pk := 1;
     EventDetail.is_anonymous := false;
     EventDetail.is_administrator := false;
     EventDetail.can_change_settings := false;
     EventDetail.sform_is_valid := false |}.

(** An anonymous visitor asks for the creation page. *)
Definition anonymous_creates : EventDetail.Request :=
  {| EventDetail.kwargs_event := None;
     EventDetail.req_event := None;
     EventDetail.user_pk := 0;
     EventDetail.is_anonymous := true;
     EventDetail.is_administrator := false;
     EventDetail.can_change_settings := false;
     EventDetail.sform_is_valid := false |}.

(** An organizer edits event 1; [valid] tells whether the settings form
    validates. *)
Definition orga_edits (valid : bool) : EventDetail.Request :=
  {| EventDetail.kwargs_event := Some "democon";
     EventDetail.req_event := Some 1;
     EventDetail.user_pk := 1;
     EventDetail.is_anonymous := false;
     EventDetail.is_administrator := false;
     EventDetail.can_change_settings := true;
     EventDetail.sform_is_valid := valid |}.

(** An administrator asks for the creation page. *)
Definition admin_creates : EventDetail.Request :=
  {| EventDetail.kwargs_event := None;
     EventDetail.req_event := None;
     EventDetail.user_pk := 9;
     EventDetail.is_anonymous := false;
     EventDetail.is_administrator := true;
     EventDetail.can_change_settings := false;
     EventDetail.sform_is_valid := false |}.

Definition democon : EventDetail.Event :=
  {| EventDetail.slug := "democon"; EventDetail.name := "DemoCon" |}.

Definition new_event_form : EventDetail.EventForm :=
  {| EventDetail.instance_pk := None; EventDetail.cleaned := democon |}.

(** The form of a new event whose slug is free. *)
Definition fresh_event_form : EventDetail.EventForm :=
  {| EventDetail.instance_pk := None;
     EventDetail.cleaned := {| EventDetail.slug := "testevent";
                               EventDetail.name := "The bestest event" |} |}.

Definition edit_event_form : EventDetail.EventForm :=
  {| EventDetail.instance_pk := Some 1; EventDetail.cleaned := democon |}.

Definition one_event : EventDetail.World :=
  {| EventDetail.events := {[ 1 := democon ]};
     EventDetail.next_event_pk := 2;
     EventDetail.trace := [] |}.

(** The mail form as submitted by the test [test_test_mail_settings]. *)
Definition mail_form : EventMailSettings.Settings :=
  {| EventMailSettings.mail_from := "foo@bar.com";
     EventMailSettings.smtp_host := "foo.bar.com";
     EventMailSettings.smtp_port := 25;
     EventMailSettings.smtp_use_custom := true |}.

Definition mail_request : EventMailSettings.Request :=
  {| EventMailSettings.req_event := 1;
     EventMailSettings.POST := [("mail_from", "foo@bar.com"); ("test", " 1 ")] |}.

Definition old_settings : EventMailSettings.World :=
  {| EventMailSettings.settings :=
       {| EventMailSettings.mail_from := "orga@orga.org";
          EventMailSettings.smtp_host := "localhost";
          EventMailSettings.smtp_port := 587;
          EventMailSettings.smtp_use_custom := false |};
     EventMailSettings.trace := [] |}.

(** A server that cannot be reached. *)
Definition unreachable : EventMailSettings.Backend :=
  {| EventMailSettings.test_error := λ _ _, Some "connection refused" |}.

(** A user changes the password, with data that validates. *)
Definition password_change : UserSettings.Request :=
  {| UserSettings.method := "POST";
     UserSettings.POST := [("action", "login"); ("form", "token")];
     UserSettings.login_data_valid := true;
     UserSettings.profile_data_valid := true |}.

(** Alice invites carol and, by his address, bob. *)
Definition formset_invite_two : Formset :=
  {| fs_is_valid := true;
     new_objects := [invitation "carol@example.org" "tokenone";
                     invitation "bob@example.org" "tokentwo"];
     changed_objects := [];
     deleted_objects := [] |}.

(** A second event with its own organizer, beside event 1 of
    [world_review]. *)
Definition erin_orga : EventPermission :=
  {| event := 2; user := Some 5; is_orga := true; is_reviewer := false;
     review_override_count := 0; invitation_token := None;
     invitation_email := None |}.

Definition world_two_events : World :=
  {| permissions := {[ 1 := alice_orga; 2 := bob_reviewer; 7 := erin_orga ]};
     next_pk := 8;
     users := {[ 1 := alice; 2 := bob ]};
     actions := []; messages := []; outbox := []; session := None |}.

(** A visit to the invitation page, whose route names no event. *)
Definition invitation_visit : InvitationRequest := {| inv_event := None |}.

(** Bob holds two permissions for event 1, and the invitation is pending. *)
Definition world_twice : World :=
  {| permissions := {[ 1 := alice_orga; 2 := bob_reviewer; 3 := pending;
                       4 := bob_reviewer ]};
     next_pk := 5;
     users := {[ 1 := alice; 2 := bob ]};
     actions := []; messages := []; outbox := []; session := None |}.

(** Erin, user 5, holds two permissions for event 1. *)
Definition erin_reviewer : EventPermission :=
  {| event := 1; user := Some 5; is_orga := false; is_reviewer := true;
     review_override_count := 0; invitation_token := None;
     invitation_email := None |}.

Definition world_erin_twice : World :=
  {| permissions := {[ 1 := alice_orga; 5 := erin_reviewer; 6 := erin_reviewer ]};
     next_pk := 7;
     users := {[ 1 := alice; 2 := bob ]};
     actions := []; messages := []; outbox := []; session := None |}.

(** Nobody is identified by the form. *)
Definition nobody_logs_in : UserForm := {| save_form := λ us, (us, None) |}.

(** A visitor reads the user settings page. *)
Definition settings_page_visit : UserSettings.Request :=
  {| UserSettings.method := "GET";
     UserSettings.POST := [];
     UserSettings.login_data_valid := false;
     UserSettings.profile_data_valid := false |}.

(** The mail form posted without the test button, as the test
    [test_edit_mail_settings] does. *)
Definition mail_request_plain : EventMailSettings.Request :=
  {| EventMailSettings.req_event := 1;
     EventMailSettings.POST := [("mail_from", "foo@bar.com"); ("smtp_port", "25")] |}.

(** A user who may look at event 1 but not change its settings. *)
Definition reviewer_views : EventDetail.Request :=
  {| EventDetail.kwargs_event := Some "democon";
     EventDetail.req_event := Some 1;
     EventDetail.user_pk := 2;
     EventDetail.is_anonymous := false;
     EventDetail.is_administrator := false;
     EventDetail.can_change_settings := false;
     EventDetail.sform_is_valid := true |}.

End Sample.

(** * Properties of the views *)

(** ** Event creation and editing *)

Section EventDetailFacts.
Import EventDetail.

Lemma action_create_iff (request : Request) :
  _action request = create ↔ kwargs_event request = None.
Proof.
  unfold _action. destruct (kwargs_event request); [|done].
  destruct (can_change_settings request); split; discriminate.
Qed.

(** C10: in the create action, an authenticated user who is not an
    administrator gets [PermissionDenied] before the generic dispatch runs,
    so no handler runs and the event table is left as it was; an anonymous
    user is not rejected by this guard and reaches the generic dispatch. *)
Theorem create_requires_administrator
    (super_dispatch : M World Response) (request : Request) (w : World) :
  _action request = create →
  (is_anonymous request = false → is_administrator request = false →
     dispatch super_dispatch request w = (Raise PermissionDenied, w))
  ∧ (is_anonymous request = true →
     dispatch super_dispatch request w = super_dispatch w).
Proof.
  intros Hact. unfold dispatch. rewrite Hact. split.
  - intros Hanon Hadmin. by rewrite Hanon, Hadmin.
  - intros Hanon. by rewrite Hanon.
Qed.

Lemma create_requires_administrator_witness :
  dispatch (form_valid Sample.orga_creates Sample.new_event_form)
    Sample.orga_creates Sample.one_event
  = (Raise PermissionDenied, Sample.one_event)
  ∧ dispatch (form_valid Sample.anonymous_creates Sample.new_event_form)
      Sample.anonymous_creates Sample.one_event
    = form_valid Sample.anonymous_creates Sample.new_event_form Sample.one_event.
Proof.
  split.
  - exact (proj1 (create_requires_administrator
                    (form_valid Sample.orga_creates Sample.new_event_form)
                    Sample.orga_creates Sample.one_event eq_refl)
             eq_refl eq_refl).
  - exact (proj2 (create_requires_administrator
                    (form_valid Sample.anonymous_creates Sample.new_event_form)
                    Sample.anonymous_creates Sample.one_event eq_refl)
             eq_refl).
Defined.


(** C6: a successful submission of the event form dispatches
    [regenerate_css] exactly once, with the key of the saved event.  For a
    user who is not anonymous a creation always succeeds, the dispatch
    following the save of the event form; an edit succeeds when the settings
    form validates, the dispatch following the save of the event form and of
    the settings form, in that order; an edit whose settings form is invalid
    returns the invalid-form response and does nothing at all.  Whenever the
    handler answers with a redirect it has dispatched exactly once, and
    whenever it raises (as it does for an anonymous user, for whom no log
    entry can be written) it has not dispatched. *)
Theorem regenerate_css_dispatched_once
    (request : Request) (form : EventForm) (w : World) :
  let k := match instance_pk form with
           | Some k => k
           | None => next_event_pk w
           end in
  (is_anonymous request = false → Py.truthy_pk (instance_pk form) = false →
     ∃ w', form_valid request form w = (Ok (Redirect (url_settings k)), w')
       ∧ events w' !! k = Some (cleaned form)
       ∧ trace w' = trace w ++
           [SavedForm k; Messaged Success (new_event_text k);
            Logged "pretalx.event.create" (user_pk request);
            CreatedPermission k (user_pk request) true; Dispatched k])
  ∧ (∀ e, is_anonymous request = false →
       Py.truthy_pk (instance_pk form) = true →
       sform request = Some (e, true) →
     ∃ w', form_valid request form w = (Ok (Redirect (url_settings k)), w')
       ∧ events w' !! k = Some (cleaned form)
       ∧ trace w' = trace w ++
           [SavedForm k; SavedSettings e;
            Logged "pretalx.event.update" (user_pk request);
            Messaged Success settings_saved_text; Dispatched k])
  ∧ (∀ e, Py.truthy_pk (instance_pk form) = true →
       sform request = Some (e, false) →
     form_valid request form w = (Ok FormInvalid, w))
  ∧ (∀ to w', form_valid request form w = (Ok (Redirect to), w') →
       to = url_settings k
       ∧ List.filter is_dispatch (drop (length (trace w)) (trace w'))
         = [Dispatched k])
  ∧ (∀ e w', form_valid request form w = (Raise e, w') →
       List.filter is_dispatch (drop (length (trace w)) (trace w')) = []).
Proof.
  intros k. unfold form_valid, sform, log_action, create_permission.
  split; [|split; [|split; [|split]]].
  - intros Hanon Hnew. rewrite Hanon, Hnew. simpl.
    eexists. split; [reflexivity|]. simpl. fold k.
    split; [apply lookup_insert_eq|]. by rewrite <- !app_assoc.
  - intros e Hanon Hold Hs. rewrite Hanon, Hold.
    destruct (req_event request) as [e'|]; [|discriminate].
    injection Hs as -> ->. simpl.
    eexists. split; [reflexivity|]. simpl. fold k.
    split; [apply lookup_insert_eq|]. by rewrite <- !app_assoc.
  - intros e Hold Hs. rewrite Hold.
    destruct (req_event request) as [e'|]; [|discriminate].
    by injection Hs as -> ->.
  - intros to w'.
    destruct (Py.truthy_pk (instance_pk form)), (is_anonymous request),
      (req_event request) as [e|], (sform_is_valid request);
      simpl; intros [= <- <-] || discriminate;
      (split; [reflexivity|]); simpl;
      by rewrite <- !app_assoc, drop_app_length.
  - intros e w'.
    destruct (Py.truthy_pk (instance_pk form)), (is_anonymous request),
      (req_event request) as [e'|], (sform_is_valid request);
      simpl; intros [= <- <-] || discriminate; simpl;
      by rewrite <- ?app_assoc, ?drop_app_length, ?drop_all.
Qed.

Lemma regenerate_css_dispatched_once_witness :
  (∃ w', form_valid Sample.admin_creates Sample.fresh_event_form Sample.one_event
         = (Ok (Redirect (url_settings 2)), w')
     ∧ List.filter is_dispatch (trace w') = [Dispatched 2])
  ∧ (∃ w', form_valid (Sample.orga_edits true) Sample.edit_event_form
             Sample.one_event
           = (Ok (Redirect (url_settings 1)), w')
       ∧ trace w' = [SavedForm 1; SavedSettings 1;
                     Logged "pretalx.event.update" 1;
                     Messaged Success settings_saved_text; Dispatched 1])
  ∧ form_valid (Sample.orga_edits false) Sample.edit_event_form Sample.one_event
    = (Ok FormInvalid, Sample.one_event).
Proof.
  pose proof (regenerate_css_dispatched_once Sample.admin_creates
                Sample.fresh_event_form Sample.one_event) as Hcreate.
  pose proof (regenerate_css_dispatched_once (Sample.orga_edits true)
                Sample.edit_event_form Sample.one_event) as Hedit.
  pose proof (regenerate_css_dispatched_once (Sample.orga_edits false)
                Sample.edit_event_form Sample.one_event) as Hinvalid.
  split; [|split].
  - destruct (proj1 Hcreate eq_refl eq_refl) as (w' & Hrun & _ & Htrace).
    exists w'. split; [exact Hrun|]. rewrite Htrace. reflexivity.
  - destruct (proj1 (proj2 Hedit) 1 eq_refl eq_refl eq_refl)
      as (w' & Hrun & _ & Htrace).
    exists w'. split; [exact Hrun|exact Htrace].
  - exact (proj1 (proj2 (proj2 Hinvalid)) 1 eq_refl eq_refl).
Defined.

End EventDetailFacts.

(** ** Mail settings *)

Section EventMailSettingsFacts.
Import EventMailSettings.

Lemma mail_form_valid_run (backend : Backend) (request : Request) (form : Settings)
    (w : World) :
  form_valid backend request form w
  = (Ok (Redirect (url_mail_settings (req_event request))),
     {| settings := form;
        trace := trace w ++ SavedSettings form ::
          (if wants_test request then
             [TestMail true (mail_from form);
              match test_error backend form (mail_from form) with
              | Some e => Messaged Warning (smtp_error_text e)
              | None =>
                  if smtp_use_custom form
                  then Messaged Success saved_and_connected_text
                  else Messaged Success contacted_but_unused_text
              end]
           else [Messaged Success saved_text]) |}).
Proof.
  unfold form_valid, bind, save, modify. simpl.
  destruct (wants_test request); simpl.
  - unfold test, bind, emit, modify, gets. simpl.
    destruct (test_error backend form (mail_from form)); simpl.
    + by rewrite <- !app_assoc.
    + destruct (smtp_use_custom form); simpl; by rewrite <- !app_assoc.
  - by rewrite <- !app_assoc.
Qed.

(** C3: the handler first saves the submitted settings.  A test mail is
    attempted exactly when the POST field 'test', stripped, is '1'; it goes
    through the backend forced to the custom server and is addressed to the
    saved [mail_from].  When the test raises, a warning carrying the error is
    shown and the response redirects to the mail settings page, the submitted
    settings staying saved; when it succeeds, a success message is shown,
    one text if [smtp_use_custom] was checked and another if not. *)
Theorem mail_test_send
    (backend : Backend) (request : Request) (form : Settings) (w : World) :
  ∃ w' rest,
    form_valid backend request form w
    = (Ok (Redirect (url_mail_settings (req_event request))), w')
    ∧ settings w' = form
    ∧ trace w' = trace w ++ SavedSettings form :: rest
    ∧ ((∃ fc to, TestMail fc to ∈ rest)
       ↔ Py.strip (Py.get_default (POST request) "test" "0") = "1")
    ∧ (∀ fc to, TestMail fc to ∈ rest → fc = true ∧ to = mail_from form)
    ∧ (Py.strip (Py.get_default (POST request) "test" "0") = "1" →
       match test_error backend form (mail_from form) with
       | Some e =>
           rest = [TestMail true (mail_from form);
                   Messaged Warning (smtp_error_text e)]
       | None =>
           rest = [TestMail true (mail_from form);
                   Messaged Success
                     (if smtp_use_custom form then saved_and_connected_text
                      else contacted_but_unused_text)]
       end)
    ∧ saved_and_connected_text ≠ contacted_but_unused_text.
Proof.
  rewrite mail_form_valid_run. eexists _, _.
  split; [reflexivity|]. split; [reflexivity|]. split; [reflexivity|].
  unfold wants_test.
  destruct (String.eqb_spec
              (Py.strip (Py.get_default (POST request) "test" "0")) "1")
    as [Heq|Hne].
  - split; [|split; [|split]]; [| | |done].
    + split; [done|]. intros _. exists true, (mail_from form).
      apply list_elem_of_here.
    + intros fc to Hin. apply elem_of_cons in Hin as [Hin|Hin].
      * by inversion Hin.
      * apply elem_of_cons in Hin as [Hin|Hin].
        -- destruct (test_error backend form (mail_from form));
             [|destruct (smtp_use_custom form)]; discriminate.
        -- by apply not_elem_of_nil in Hin.
    + intros _. destruct (test_error backend form (mail_from form)); [done|].
      by destruct (smtp_use_custom form).
  - split; [|split; [|split]]; [| | |done].
    + split; [|done]. intros (fc & to & Hin).
      apply elem_of_cons in Hin as [Hin|Hin]; [discriminate|].
      by apply not_elem_of_nil in Hin.
    + intros fc to Hin.
      apply elem_of_cons in Hin as [Hin|Hin]; [discriminate|].
      by apply not_elem_of_nil in Hin.
    + done.
Qed.

Lemma mail_test_send_witness :
  ∃ w', form_valid Sample.unreachable Sample.mail_request Sample.mail_form
          Sample.old_settings
        = (Ok (Redirect (url_mail_settings 1)), w')
    ∧ settings w' = Sample.mail_form
    ∧ trace w' = [SavedSettings Sample.mail_form; TestMail true "foo@bar.com";
                  Messaged Warning (smtp_error_text "connection refused")].
Proof.
  destruct (mail_test_send Sample.unreachable Sample.mail_request
              Sample.mail_form Sample.old_settings)
    as (w' & rest & Hrun & Hsaved & Htrace & _ & _ & Htest & _).
  exists w'. split; [exact Hrun|]. split; [exact Hsaved|].
  rewrite Htrace, (Htest eq_refl). reflexivity.
Defined.


End EventMailSettingsFacts.

(** ** User settings *)

Section UserSettingsFacts.
Import UserSettings.

Lemma user_post_run (request : Request) (w : World) :
  post request w = (Ok (Redirect url_user_view), w ++ user_post_effects request).
Proof.
  unfold post, user_post_effects.
  destruct (is_bound (login_form request) && is_valid (login_form request));
    [|destruct (is_bound (profile_form request)
                && is_valid (profile_form request));
      [|destruct (bool_decide (Py.get (POST request) "form" = Some "token"))]];
    unfold bind, emit, modify, ret; simpl; by rewrite <- ?app_assoc.
Qed.

(** C7: every POST to the user settings does exactly one of four things,
    chosen in this order: with a bound and valid login form, that form is
    saved and a password update logged; otherwise with a bound and valid
    profile form, that form is saved and a profile update logged; otherwise
    if the field 'form' is 'token', the API token is regenerated; otherwise an
    error message is shown.  The response always redirects to the user
    settings page. *)
Theorem user_settings_post_exclusive (request : Request) (w : World) :
  ∃ new,
    post request w = (Ok (Redirect url_user_view), w ++ new)
    ∧ (∃ d, omap did new = [d]
          ∧ d = if is_bound (login_form request) && is_valid (login_form request)
                then did_login
                else if is_bound (profile_form request)
                        && is_valid (profile_form request)
                then did_profile
                else if bool_decide (Py.get (POST request) "form" = Some "token")
                then did_token
                else did_error)
    ∧ (SavedLoginForm ∈ new → Logged "pretalx.user.password.update" ∈ new)
    ∧ (SavedProfileForm ∈ new → Logged "pretalx.user.profile.update" ∈ new).
Proof.
  exists (user_post_effects request). split; [apply user_post_run|].
  unfold user_post_effects.
  destruct (is_bound (login_form request) && is_valid (login_form request));
    [|destruct (is_bound (profile_form request)
                && is_valid (profile_form request));
      [|destruct (bool_decide (Py.get (POST request) "form" = Some "token"))]];
    (split; [eexists; split; reflexivity|]);
    split; intros Hin; repeat (apply elem_of_cons in Hin as [Hin|Hin];
                               [try discriminate|]);
    try (by apply not_elem_of_nil in Hin);
    repeat constructor.
Qed.

Lemma user_settings_post_exclusive_witness :
  ∃ new, post Sample.password_change [] = (Ok (Redirect url_user_view), new)
    ∧ omap did new = [did_login]
    ∧ (SavedLoginForm ∈ new → Logged "pretalx.user.password.update" ∈ new).
Proof.
  destruct (user_settings_post_exclusive Sample.password_change [])
    as (new & Hrun & (d & Hdid & Hd) & Hlogin & _).
  exists new. split; [exact Hrun|]. split; [by rewrite Hdid, Hd|exact Hlogin].
Defined.


End UserSettingsFacts.

(** ** The team settings and invitations *)

Section TeamFacts.
Import Team Sample.

(** *** The handler monad *)

Lemma bind_Ok {S A B} (m : M S A) (k : A → M S B) (w w' : S) (b : B) :
  bind m k w = (Ok b, w') →
  ∃ a w1, m w = (Ok a, w1) ∧ k a w1 = (Ok b, w').
Proof.
  unfold bind. destruct (m w) as [[a|e] w1]; [eauto|discriminate].
Qed.

Lemma bind_run {S A B} (m : M S A) (k : A → M S B) (w w1 : S) (a : A) :
  m w = (Ok a, w1) → bind m k w = k a w1.
Proof. unfold bind. by intros ->. Qed.

(** *** [@transaction.atomic] *)

Lemma atomic_Ok {A} (m : M World A) (w w' : World) (a : A) :
  atomic m w = (Ok a, w') → m w = (Ok a, w').
Proof.
  unfold atomic. destruct (m w) as [[a'|e] w1]; congruence.
Qed.

Lemma atomic_Raise {A} (m : M World A) (w w' : World) (e : Exn) :
  atomic m w = (Raise e, w') →
  permissions w' = permissions w ∧ users w' = users w ∧ actions w' = actions w.
Proof.
  unfold atomic. destruct (m w) as [[a'|e'] w1]; [discriminate|].
  by intros [= _ <-].
Qed.

(** *** Query sets *)

Lemma first_elem {A} (m : gmap nat A) (k : nat) (a : A) :
  first m = Some (k, a) → m !! k = Some a.
Proof.
  unfold first. rewrite <- elem_of_map_to_list.
  generalize (map_to_list m). intros l. revert k a.
  induction l as [|[j b] l IH]; intros k a; simpl; [discriminate|].
  destruct (foldr _ None l) as [[j' b']|] eqn:Hrest.
  - case_decide; intros [= <- <-].
    + right. by apply IH.
    + left.
  - intros [= <- <-]. left.
Qed.

Lemma first_None {A} (m : gmap nat A) : first m = None → m = ∅.
Proof.
  unfold first. intros Hfirst. apply map_to_list_empty_iff.
  destruct (map_to_list m) as [|kv l]; [done|]. simpl in Hfirst.
  destruct (foldr _ None l); [case_decide|]; discriminate.
Qed.

Lemma size_le_1_keys {A} (m : gmap nat A) :
  size m ≤ 1 ↔
  ∀ k1 k2 a1 a2, m !! k1 = Some a1 → m !! k2 = Some a2 → k1 = k2.
Proof.
  split.
  - intros Hsize k1 k2 a1 a2 H1 H2.
    destruct (decide (k1 = k2)) as [|Hne]; [done|exfalso].
    assert (size (delete k1 m) = 0) as Hzero.
    { rewrite map_size_delete, H1. simpl. lia. }
    apply map_size_empty_inv in Hzero.
    assert (delete k1 m !! k2 = Some a2) as Hk2
      by by rewrite lookup_delete_ne.
    by rewrite Hzero, lookup_empty in Hk2.
  - intros Hkeys. induction m as [|k a m Hk _] using map_ind.
    + rewrite map_size_empty. lia.
    + rewrite map_size_insert_None by done.
      enough (m = ∅) as -> by (rewrite map_size_empty; lia).
      apply map_empty. intros j. destruct (m !! j) as [b|] eqn:Hj; [|done].
      assert (k = j) as <-.
      { apply (Hkeys k j a b); [apply lookup_insert_eq|].
        rewrite lookup_insert_ne; [done|]. intros <-. congruence. }
      congruence.
Qed.

Lemma get_object_or_404_Ok (m : gmap nat EventPermission) (p : PermObj) :
  get_object_or_404 m = Ok p →
  ∃ k, pk p = Some k ∧ m = {[ k := row p ]}.
Proof.
  unfold get_object_or_404. intros Hget.
  destruct (map_to_list m) as [|[k r] [|kv l]] eqn:Hl; try discriminate.
  injection Hget as <-. exists k. split; [done|]. simpl.
  rewrite <- (list_to_map_to_list m), Hl. reflexivity.
Qed.

Lemma get_object_or_404_singleton (k : nat) (r : EventPermission) :
  get_object_or_404 {[ k := r ]} = Ok {| pk := Some k; row := r |}.
Proof. unfold get_object_or_404. by rewrite map_to_list_singleton. Qed.

Lemma get_object_or_404_Http404 (m : gmap nat EventPermission) :
  get_object_or_404 m = Raise Http404 ↔ m = ∅.
Proof.
  unfold get_object_or_404. split.
  - intros Hget. apply map_to_list_empty_iff.
    by destruct (map_to_list m) as [|[k r] [|kv l]].
  - intros ->. by rewrite map_to_list_empty.
Qed.

(** *** The stages of [EventTeam.post] *)

Lemma delete_all_subseteq (ds : list PermObj) (w w1 : World) :
  for_each delete_obj ds w = (Ok tt, w1) →
  permissions w1 ⊆ permissions w.
Proof.
  revert w. induction ds as [|d ds IH]; intros w; simpl.
  - by intros [= <-].
  - intros Hrun. apply bind_Ok in Hrun as ([] & w0 & Hd & Hrest).
    apply IH in Hrest. etrans; [exact Hrest|].
    unfold delete_obj in Hd. destruct (pk d) as [k|]; [|discriminate].
    injection Hd as <-. simpl. apply delete_subseteq.
Qed.

Lemma save_Ok (p q : PermObj) (w w1 : World) :
  save p w = (Ok q, w1) →
  ∃ k, q = {| pk := Some k; row := row p |}
       ∧ permissions w1 = <[k := row p]> (permissions w).
Proof.
  unfold save. destruct p as [[j|] r]; simpl; intros [= <- <-]; eauto.
Qed.

Lemma log_action_permissions (name : string) (person : nat) (w w1 : World) :
  log_action name person w = (Ok tt, w1) → permissions w1 = permissions w.
Proof. by intros [= <-]. Qed.

Lemma add_message_permissions (l : Level) (t : string) (w w1 : World) :
  add_message l t w = (Ok tt, w1) → permissions w1 = permissions w.
Proof. by intros [= <-]. Qed.

Lemma save_keeps_key (p q : PermObj) (w w1 : World) (k : nat) :
  save p w = (Ok q, w1) → pk p = Some k → q = p.
Proof.
  unfold save. destruct p as [[j|] r]; simpl; [|discriminate].
  by intros [= <- _].
Qed.

Lemma save_effects (p q : PermObj) (w w1 : World) :
  save p w = (Ok q, w1) →
  outbox w1 = outbox w ∧ actions w1 = actions w ∧ messages w1 = messages w.
Proof. unfold save. destruct (pk p); by intros [= _ <-]. Qed.

(** What [send_invite_email] does to the permission and to the world. *)
Lemma send_invite_email_Ok
    (env : Env) (p q : PermObj) (mail : Mail) (w w1 : World) :
  send_invite_email env p w = (Ok (q, mail), w1) →
  mail = {| invite_for := q |}
  ∧ (outbox w1 = outbox w ∧ actions w1 = actions w ∧ messages w1 = messages w)
  ∧ (event (row q) = event (row p) ∧ user (row q) = user (row p)
     ∧ is_orga (row q) = is_orga (row p)
     ∧ is_reviewer (row q) = is_reviewer (row p)
     ∧ invitation_email (row q) = invitation_email (row p))
  ∧ ((q = p ∧ permissions w1 = permissions w)
     ∨ (∃ k, pk q = Some k
             ∧ permissions w1 = <[k := row q]> (permissions w))).
Proof.
  unfold send_invite_email. intros Hrun.
  apply bind_Ok in Hrun as (p1 & w2 & Hdraw & Hrun).
  destruct (invite_error env p1); [discriminate|].
  injection Hrun as <- <- <-. split; [done|].
  destruct (user (row p)) eqn:Hu.
  - injection Hdraw as <- <-. repeat split; try done. by left.
  - pose proof (save_effects _ _ _ _ Hdraw) as Heff.
    apply save_Ok in Hdraw as (k & -> & Htbl). simpl in *.
    repeat split; try done; try apply Heff.
    right. by exists k.
Qed.

Lemma invite_and_save_Ok
    (env : Env) (request : Request) (p p' : PermObj) (ms : list Mail)
    (w w1 : World) :
  invite_and_save env request p w = (Ok (p', ms), w1) →
  ∃ k, pk p' = Some k ∧ permissions w1 = <[k := row p']> (permissions w).
Proof.
  unfold invite_and_save.
  destruct (Py.truthy_str (invitation_email (row p))).
  - intros Hrun.
    apply bind_Ok in Hrun as (u & w2 & Hfind & Hrun).
    injection Hfind as _ <-.
    apply bind_Ok in Hrun as ([q mail] & w2 & Hmail & Hrun).
    apply send_invite_email_Ok in Hmail as (_ & _ & _ & Hsent).
    apply bind_Ok in Hrun as ([] & w3 & Hlog & Hrun).
    apply log_action_permissions in Hlog.
    apply bind_Ok in Hrun as ([] & w4 & Hmsg & Hrun).
    apply add_message_permissions in Hmsg.
    apply bind_Ok in Hrun as (q' & w5 & Hsave & [= <- _ <-]).
    simpl in Hsave.
    destruct Hsent as [[_ Htbl]|(k & Hk & Htbl)].
    + apply save_Ok in Hsave as (k & -> & Htbl').
      exists k. split; [done|]. by rewrite Htbl', Hmsg, Hlog, Htbl.
    + pose proof (save_keeps_key _ _ _ _ _ Hsave Hk) as ->.
      apply save_Ok in Hsave as (k' & Hq & Htbl').
      assert (k' = k) as -> by (rewrite Hq in Hk; by injection Hk).
      exists k. split; [done|].
      rewrite Htbl', Hmsg, Hlog, Htbl. apply insert_insert_eq.
  - intros Hrun.
    apply bind_Ok in Hrun as (q & w2 & Hsave & [= <- _ <-]).
    apply save_Ok in Hsave as (k & -> & Htbl).
    exists k. by split.
Qed.

Lemma invite_and_save_all_Ok
    (env : Env) (request : Request) (ps saved : list PermObj)
    (mails : list Mail) (w w1 : World) :
  invite_and_save_all env request ps w = (Ok (saved, mails), w1) →
  ∀ k r, permissions w1 !! k = Some r →
         permissions w !! k = Some r ∨ ∃ p, p ∈ saved ∧ row p = r.
Proof.
  revert saved mails w. induction ps as [|p ps IH]; intros saved mails w; simpl.
  - intros [= <- _ <-]. eauto.
  - intros Hrun k r Hk.
    apply bind_Ok in Hrun as ([p' ms] & w2 & Hone & Hrun).
    apply bind_Ok in Hrun as ([saved' mails'] & w3 & Hrest & [= <- _ <-]).
    destruct (IH _ _ _ Hrest k r Hk) as [Hold|(q & Hq & Hrow)].
    + apply invite_and_save_Ok in Hone as (j & Hj & Htbl).
      rewrite Htbl in Hold. simpl.
      destruct (decide (j = k)) as [->|Hne].
      * rewrite lookup_insert_eq in Hold. injection Hold as <-.
        right. exists p'. split; [left|done].
      * rewrite lookup_insert_ne in Hold by done. by left.
    + right. exists q. split; [by right|done].
Qed.

Lemma delete_duplicates_all_run (saved : list PermObj) (w : World) :
  ∃ w1, for_each delete_duplicates saved w = (Ok tt, w1)
    ∧ permissions w1 ⊆ permissions w
    ∧ ∀ p u k r, p ∈ saved → user (row p) = Some u →
        permissions w1 !! k = Some r →
        event r = event (row p) → user r = Some u → pk p = Some k.
Proof.
  revert w. induction saved as [|p saved IH]; intros w; simpl.
  - exists w. split; [done|]. split; [done|].
    intros p u k r Hin. by apply not_elem_of_nil in Hin.
  - unfold bind.
    destruct (delete_duplicates p w) as [[[]|e] w0] eqn:Hone.
    2:{ unfold delete_duplicates in Hone.
        destruct (user (row p)); discriminate. }
    destruct (IH w0) as (w1 & Hrun & Hsub & Hrest).
    exists w1. split; [done|].
    assert (permissions w0 ⊆ permissions w) as Hsub0.
    { unfold delete_duplicates in Hone. destruct (user (row p)).
      - injection Hone as <-. simpl. apply map_filter_subseteq.
      - by injection Hone as <-. }
    split; [by etrans|].
    intros q u k r Hin Hu Hk He Hr.
    apply elem_of_cons in Hin as [->|Hin]; [|by eapply Hrest].
    assert (permissions w0 !! k = Some r) as Hk0
      by (eapply lookup_weaken; eauto).
    unfold delete_duplicates in Hone. rewrite Hu in Hone.
    injection Hone as <-. simpl in Hk0.
    apply map_lookup_filter_Some in Hk0 as [_ Hdup].
    unfold is_duplicate_of in Hdup. simpl in Hdup.
    rewrite He, Hr, Hu in Hdup.
    rewrite !bool_decide_eq_true_2 in Hdup by done. simpl in Hdup.
    apply negb_false_iff, bool_decide_eq_true in Hdup. done.
Qed.

Lemma send_all_permissions (env : Env) (mails : list Mail) (w w1 : World) :
  for_each (send env) mails w = (Ok tt, w1) →
  permissions w1 = permissions w.
Proof.
  revert w. induction mails as [|m mails IH]; intros w; simpl.
  - by intros [= <-].
  - intros Hrun. apply bind_Ok in Hrun as ([] & w0 & Hone & Hrest).
    rewrite (IH _ Hrest). unfold send in Hone.
    destruct (send_error env m); [discriminate|]. by injection Hone as <-.
Qed.

(** A POST that passes both guards and does not raise went through the four
    stages. *)
Lemma post_Ok_stages
    (env : Env) (request : Request) (formset : Formset)
    (w w' : World) (resp : Response) :
  fs_is_valid formset = true → has_remaining_team formset = Ok true →
  post env request formset w = (Ok resp, w') →
  ∃ w1 w2 w3 mails,
    for_each delete_obj (deleted_objects formset) w = (Ok tt, w1)
    ∧ invite_and_save_all env request (formset_save formset) w1
      = (Ok (saved_instances env request formset w, mails), w2)
    ∧ for_each delete_duplicates (saved_instances env request formset w) w2
      = (Ok tt, w3)
    ∧ for_each (send env) mails w3 = (Ok tt, w')
    ∧ resp = Redirect (url_team_settings (req_event request)).
Proof.
  intros Hvalid Hteam Hrun. unfold post in Hrun. apply atomic_Ok in Hrun.
  unfold post_body in Hrun. rewrite Hvalid in Hrun. simpl in Hrun.
  unfold bind at 1 in Hrun. rewrite Hteam in Hrun. simpl in Hrun.
  apply bind_Ok in Hrun as ([] & w1 & Hdel & Hrun).
  apply bind_Ok in Hrun as ([saved mails] & w2 & Hsave & Hrun).
  apply bind_Ok in Hrun as ([] & w3 & Hdup & Hrun).
  apply bind_Ok in Hrun as ([] & w4 & Hsend & [= <- <-]).
  assert (saved_instances env request formset w = saved) as ->.
  { unfold saved_instances. by rewrite (bind_run _ _ _ _ _ Hdel), Hsave. }
  by exists w1, w2, w3, mails.
Qed.

(** C8: a team-settings POST that passes both guards and completes leaves
    at most one permission per event and user, for every pair that had at
    most one before and for every pair of a saved permission with a user
    attached: all other rows of that event and user are deleted. *)
Theorem one_permission_per_user
    (env : Env) (request : Request) (formset : Formset)
    (w w' : World) (resp : Response) :
  fs_is_valid formset = true → has_remaining_team formset = Ok true →
  post env request formset w = (Ok resp, w') →
  (∀ p u k r, p ∈ saved_instances env request formset w →
     user (row p) = Some u →
     permissions w' !! k = Some r →
     event r = event (row p) → user r = Some u → pk p = Some k)
  ∧ (∀ e u,
       size (held_by e u (permissions w)) ≤ 1
       ∨ (∃ p, p ∈ saved_instances env request formset w
               ∧ event (row p) = e ∧ user (row p) = Some u) →
       size (held_by e u (permissions w')) ≤ 1).
Proof.
  intros Hvalid Hteam Hrun.
  destruct (post_Ok_stages _ _ _ _ _ _ Hvalid Hteam Hrun)
    as (w1 & w2 & w3 & mails & Hdel & Hsave & Hdup & Hsend & _).
  apply delete_all_subseteq in Hdel.
  pose proof (invite_and_save_all_Ok _ _ _ _ _ _ _ Hsave) as Horigin.
  destruct (delete_duplicates_all_run
              (saved_instances env request formset w) w2)
    as (w3' & Hdup' & Hsub & Hsingle).
  rewrite Hdup in Hdup'. injection Hdup' as <-.
  apply send_all_permissions in Hsend. rewrite Hsend.
  split; [exact Hsingle|].
  assert (∀ e u p, p ∈ saved_instances env request formset w →
            event (row p) = e → user (row p) = Some u →
            size (held_by e u (permissions w3)) ≤ 1) as Htouched.
  { intros e u p Hin He Hu. apply size_le_1_keys.
    intros k1 k2 r1 r2 H1 H2. unfold held_by in H1, H2.
    apply map_lookup_filter_Some in H1 as [H1 [He1 Hu1]].
    apply map_lookup_filter_Some in H2 as [H2 [He2 Hu2]].
    simpl in *.
    assert (pk p = Some k1) as Hk1 by (eapply Hsingle; eauto; congruence).
    assert (pk p = Some k2) as Hk2 by (eapply Hsingle; eauto; congruence).
    congruence. }
  intros e u [Hbefore|(p & Hin & He & Hu)]; [|by eapply Htouched].
  apply size_le_1_keys. intros k1 k2 r1 r2 H1 H2.
  pose proof H1 as H1'. pose proof H2 as H2'. unfold held_by in H1, H2.
  apply map_lookup_filter_Some in H1 as [H1 [He1 Hu1]].
  apply map_lookup_filter_Some in H2 as [H2 [He2 Hu2]].
  simpl in *.
  assert (∀ k r, permissions w3 !! k = Some r → event r = e →
            user r = Some u →
            held_by e u (permissions w) !! k = Some r
            ∨ size (held_by e u (permissions w3)) ≤ 1) as Hcases.
  { intros k r Hk He Hu.
    destruct (Horigin k r) as [Hold|(p & Hin & Hrow)].
    - eapply lookup_weaken; eauto.
    - left. unfold held_by. apply map_lookup_filter_Some.
      split; [eapply lookup_weaken; eauto|done].
    - right. subst r. by eapply Htouched. }
  destruct (Hcases k1 r1 H1 He1 Hu1) as [Hold1|Hsmall];
    [|by eapply (proj1 (size_le_1_keys _) Hsmall)].
  destruct (Hcases k2 r2 H2 He2 Hu2) as [Hold2|Hsmall];
    [|by eapply (proj1 (size_le_1_keys _) Hsmall)].
  by eapply (proj1 (size_le_1_keys _) Hbefore).
Qed.

Lemma one_permission_per_user_witness :
  size (held_by 1 2
          (permissions (post quiet_env request0 formset_invite_bob world_review).2))
  ≤ 1.
Proof.
  refine (proj2 (one_permission_per_user quiet_env request0 formset_invite_bob
                   world_review
                   (post quiet_env request0 formset_invite_bob world_review).2
                   (Redirect (url_team_settings 1)) eq_refl eq_refl _)
            1 2 _).
  - vm_compute. reflexivity.
  - right.
    exists {| pk := Some 3;
              row := set_invitation_token None
                       (set_invitation_email None
                          (set_user (Some 2)
                             (row (invitation "bob@example.org" "tokenone")))) |}.
    split; [vm_compute; left|split; reflexivity].
Defined.

(** A completed POST does not touch the rows of a user it does not save a
    permission for: erin, who held two permissions for event 1 before alice
    invited bob, holds two afterwards. *)
Lemma untouched_duplicates_remain :
  fs_is_valid formset_invite_bob = true
  ∧ has_remaining_team formset_invite_bob = Ok true
  ∧ post quiet_env request0 formset_invite_bob world_erin_twice
    = (Ok (Redirect (url_team_settings 1)),
       (post quiet_env request0 formset_invite_bob world_erin_twice).2)
  ∧ Forall (λ m, level m = Success)
      (messages (post quiet_env request0 formset_invite_bob world_erin_twice).2)
  ∧ size (held_by 1 5
            (permissions
               (post quiet_env request0 formset_invite_bob world_erin_twice).2))
    = 2
  ∧ ¬ size (held_by 1 5
              (permissions
                 (post quiet_env request0 formset_invite_bob world_erin_twice).2))
      ≤ 1.
Proof.
  assert (size (held_by 1 5
                  (permissions
                     (post quiet_env request0 formset_invite_bob
                        world_erin_twice).2)) = 2) as Hsize
    by (vm_compute; reflexivity).
  split_and!.
  - reflexivity.
  - reflexivity.
  - vm_compute. reflexivity.
  - vm_compute. repeat constructor.
  - exact Hsize.
  - rewrite Hsize. lia.
Qed.



(** *** Accepting an invitation *)

Lemma object_run (code : string) (w : World) :
  object code w
  = (get_object_or_404 (open_invitations code (permissions w)), w).
Proof. reflexivity. Qed.

(** The permission [InvitationView.form_valid] ends up saving, when the
    accepting user already holds the permission [Q]. *)
Lemma invitation_form_valid_run
    (request : InvitationRequest) (code : string) (form : UserForm) (w : World)
    (us : gmap nat User) (u : nat) (usr : User) (k : nat) (P : EventPermission) :
  save_form form (users w) = (us, Some u) →
  us !! u = Some usr →
  (object code w).1 = Ok {| pk := Some k; row := P |} →
  ∃ w', form_valid request code form w
        = (Ok (Redirect (url_orga_base (event P))), w')
    ∧ permissions w'
      = match first (filter (λ kv, is_other_permission u
                                     {| pk := Some k; row := P |} kv = true)
                            (permissions w)) with
        | Some (q, Q) =>
            <[q := set_user (Some u) (merged_permission P Q)]>
              (delete k (<[q := merged_permission P Q]> (permissions w)))
        | None => <[k := set_user (Some u) P]> (permissions w)
        end.
Proof.
  intros Hform Huser Hobj. rewrite object_run in Hobj. simpl in Hobj.
  unfold form_valid. unfold bind at 1. rewrite Hform. simpl.
  unfold bind at 1. rewrite object_run. simpl. rewrite Hobj.
  unfold bind at 1. simpl. rewrite Huser.
  unfold bind at 1. simpl.
  destruct (first _) as [[q Q]|]; simpl.
  - unfold merged_permission.
    destruct (is_orga P), (is_reviewer P);
      eexists; (split; [reflexivity|done]).
  - eexists. split; [reflexivity|]. done.
Qed.

Lemma first_empty {A} : first (∅ : gmap nat A) = None.
Proof. unfold first. by rewrite map_to_list_empty. Qed.

(** The invitation a code resolves to is a row without a user whose token
    matches the code. *)
Lemma object_Ok (code : string) (w : World) (p : PermObj) :
  (object code w).1 = Ok p →
  ∃ k, pk p = Some k
       ∧ open_invitations code (permissions w) = {[ k := row p ]}
       ∧ permissions w !! k = Some (row p)
       ∧ user (row p) = None
       ∧ ∃ t, invitation_token (row p) = Some t ∧ Py.iexact t code = true.
Proof.
  rewrite object_run. simpl. intros Hobj.
  apply get_object_or_404_Ok in Hobj as (k & Hk & Hopen).
  exists k. split; [done|]. split; [done|].
  assert (open_invitations code (permissions w) !! k = Some (row p)) as Hrow
    by (rewrite Hopen; apply lookup_singleton_eq).
  unfold open_invitations in Hrow.
  apply map_lookup_filter_Some in Hrow as [Hrow Hmatch].
  split; [done|]. unfold is_open_invitation in Hmatch. simpl in Hmatch.
  apply andb_true_iff in Hmatch as [Htok Huser].
  apply bool_decide_eq_true in Huser. split; [done|].
  destruct (invitation_token (row p)) as [t|]; [eauto|discriminate].
Qed.

(** The rows the accepting user holds besides the invitation are the rows
    the user holds. *)
Lemma other_permissions_held
    (u k : nat) (P : EventPermission) (tbl : gmap nat EventPermission) :
  tbl !! k = Some P → user P = None →
  filter (λ kv, is_other_permission u {| pk := Some k; row := P |} kv = true) tbl
  = held_by (event P) u tbl.
Proof.
  intros HP Hnone. unfold held_by. apply map_filter_ext.
  intros j r Hj. unfold is_other_permission. simpl.
  rewrite !andb_true_iff, negb_true_iff, !bool_decide_eq_true,
    bool_decide_eq_false.
  split; [intros [[Hu He] _]; by split|]. intros [He Hu]. repeat split; [done..|].
  intros [= ->]. congruence.
Qed.

(** After an accepted invitation every row either has a user or is an
    untouched row other than the invitation. *)
Lemma accepted_rows
    (request : InvitationRequest) (code : string) (form : UserForm) (w : World)
    (us : gmap nat User) (u : nat) (usr : User) (k : nat) (P : EventPermission) :
  save_form form (users w) = (us, Some u) →
  us !! u = Some usr →
  (object code w).1 = Ok {| pk := Some k; row := P |} →
  ∃ w', form_valid request code form w
        = (Ok (Redirect (url_orga_base (event P))), w')
    ∧ ∀ j r, permissions w' !! j = Some r →
        user r ≠ None ∨ (j ≠ k ∧ permissions w !! j = Some r).
Proof.
  intros Hform Huser Hobj.
  destruct (invitation_form_valid_run request _ _ _ _ _ _ _ _ Hform Huser Hobj)
    as (w' & Hrun & Htbl).
  exists w'. split; [done|]. intros j r. rewrite Htbl.
  destruct (first _) as [[q Q]|].
  - destruct (decide (j = q)) as [->|Hq].
    + rewrite lookup_insert_eq. intros [= <-]. by left.
    + rewrite lookup_insert_ne by done.
      destruct (decide (j = k)) as [->|Hk].
      * by rewrite lookup_delete_eq.
      * rewrite lookup_delete_ne, lookup_insert_ne by done. by right.
  - destruct (decide (j = k)) as [->|Hk].
    + rewrite lookup_insert_eq. intros [= <-]. by left.
    + rewrite lookup_insert_ne by done. by right.
Qed.

(** C2: a user [u] accepts the invitation [P] (a permission without user,
    stored under [k]) while holding at most one permission for the event.  If
    [u] holds a permission [Q], then afterwards [u] holds exactly one
    permission for the event, the row of [Q] with [is_orga] set iff it was
    set in [P] or [Q] and [is_reviewer] likewise, and the row of [P] is gone.
    If [u] holds none, the row of [P] itself is bound to [u]. *)
Theorem invitation_merges_permissions
    (request : InvitationRequest) (code : string) (form : UserForm) (w : World)
    (us : gmap nat User) (u : nat) (usr : User) (k : nat) (P : EventPermission) :
  save_form form (users w) = (us, Some u) →
  us !! u = Some usr →
  (object code w).1 = Ok {| pk := Some k; row := P |} →
  size (held_by (event P) u (permissions w)) ≤ 1 →
  ∃ w', form_valid request code form w
        = (Ok (Redirect (url_orga_base (event P))), w')
    ∧ (∀ q Q, permissions w !! q = Some Q →
         event Q = event P → user Q = Some u →
         held_by (event P) u (permissions w')
         = {[ q := {| event := event Q; user := Some u;
                      is_orga := is_orga P || is_orga Q;
                      is_reviewer := is_reviewer P || is_reviewer Q;
                      review_override_count := review_override_count Q;
                      invitation_token := invitation_token Q;
                      invitation_email := invitation_email Q |} ]}
         ∧ size (held_by (event P) u (permissions w')) = 1
         ∧ permissions w' !! k = None)
    ∧ (held_by (event P) u (permissions w) = ∅ →
         held_by (event P) u (permissions w') = {[ k := set_user (Some u) P ]}
         ∧ permissions w' !! k = Some (set_user (Some u) P)).
Proof.
  intros Hform Huser Hobj Hone.
  destruct (invitation_form_valid_run request _ _ _ _ _ _ _ _ Hform Huser Hobj)
    as (w' & Hrun & Htbl).
  apply object_Ok in Hobj as (k' & [= <-] & _ & HP & Hnone & _).
  simpl in HP, Hnone.
  rewrite (other_permissions_held _ _ _ _ HP Hnone) in Htbl.
  pose proof (proj1 (size_le_1_keys _) Hone) as Hkeys.
  exists w'. split; [done|]. split.
  - intros q Q HQ He Hu.
    assert (held_by (event P) u (permissions w) !! q = Some Q) as Hheld
      by (apply map_lookup_filter_Some; by split).
    assert (q ≠ k) as Hqk by (intros ->; congruence).
    destruct (first _) as [[q' Q']|] eqn:Hfirst.
    2:{ apply first_None in Hfirst. by rewrite Hfirst, lookup_empty in Hheld. }
    apply first_elem in Hfirst.
    assert (q' = q) as -> by (eapply Hkeys; eauto).
    assert (Q' = Q) as -> by congruence.
    assert (set_user (Some u) (merged_permission P Q)
            = {| event := event Q; user := Some u;
                 is_orga := is_orga P || is_orga Q;
                 is_reviewer := is_reviewer P || is_reviewer Q;
                 review_override_count := review_override_count Q;
                 invitation_token := invitation_token Q;
                 invitation_email := invitation_email Q |}) as Hmerged.
    { unfold merged_permission. by destruct Q, (is_orga P), (is_reviewer P). }
    rewrite Hmerged in Htbl.
    assert (held_by (event P) u (permissions w')
            = {[ q := {| event := event Q; user := Some u;
                         is_orga := is_orga P || is_orga Q;
                         is_reviewer := is_reviewer P || is_reviewer Q;
                         review_override_count := review_override_count Q;
                         invitation_token := invitation_token Q;
                         invitation_email := invitation_email Q |} ]}) as Hafter.
    { apply map_eq. intros j. unfold held_by. rewrite Htbl.
      destruct (decide (j = q)) as [->|Hj].
      - rewrite lookup_singleton_eq. apply map_lookup_filter_Some.
        split; [apply lookup_insert_eq|]. by split.
      - rewrite lookup_singleton_ne by done.
        apply map_lookup_filter_None. rewrite lookup_insert_ne by done.
        destruct (decide (j = k)) as [->|Hk]; [left; apply lookup_delete_eq|].
        rewrite lookup_delete_ne, lookup_insert_ne by done.
        right. intros r Hr [He' Hu']. simpl in *.
        apply Hj. eapply Hkeys; [|exact Hheld].
        apply map_lookup_filter_Some. by split. }
    split; [done|]. split; [by rewrite Hafter, map_size_singleton|].
    rewrite Htbl, lookup_insert_ne, lookup_delete_eq; done.
  - intros Hempty. rewrite Hempty, first_empty in Htbl.
    split; [|rewrite Htbl; apply lookup_insert_eq].
    apply map_eq. intros j. unfold held_by. rewrite Htbl.
    destruct (decide (j = k)) as [->|Hk].
    + rewrite lookup_singleton_eq. apply map_lookup_filter_Some.
      split; [apply lookup_insert_eq|]. by split.
    + rewrite lookup_singleton_ne by done.
      apply map_lookup_filter_None. rewrite lookup_insert_ne by done.
      right. intros r Hr [He' Hu']. simpl in *.
      assert (held_by (event P) u (permissions w) !! j = Some r) as Hin
        by (apply map_lookup_filter_Some; by split).
      by rewrite Hempty, lookup_empty in Hin.
Qed.

Lemma invitation_merges_permissions_witness :
  ∃ w', form_valid invitation_visit "tokenone" bob_logs_in world_invited
        = (Ok (Redirect (url_orga_base 1)), w')
    ∧ held_by 1 2 (permissions w')
      = {[ 2 := {| event := 1; user := Some 2; is_orga := true;
                   is_reviewer := true; review_override_count := 0;
                   invitation_token := None; invitation_email := None |} ]}
    ∧ permissions w' !! 3 = None.
Proof.
  destruct (invitation_merges_permissions invitation_visit "tokenone" bob_logs_in
              world_invited {[ 1 := alice; 2 := bob ]} 2 bob 3 pending)
    as (w' & Hrun & Hmerge & _).
  - reflexivity.
  - reflexivity.
  - vm_compute. reflexivity.
  - vm_compute. lia.
  - exists w'. split; [exact Hrun|].
    destruct (Hmerge 2 bob_reviewer) as (Hheld & _ & Hgone); [reflexivity..|].
    split; [exact Hheld|exact Hgone].
Defined.

(** Only the first of the permissions the accepting user holds is merged:
    bob, who holds two permissions for event 1, accepts the invitation and
    holds two afterwards. *)
Lemma second_permission_remains :
  (object "tokenone" world_twice).1 = Ok {| pk := Some 3; row := pending |}
  ∧ permissions world_twice !! 2 = Some bob_reviewer
  ∧ permissions world_twice !! 4 = Some bob_reviewer
  ∧ (form_valid invitation_visit "tokenone" bob_logs_in world_twice).1
    = Ok (Redirect (url_orga_base 1))
  ∧ size (held_by 1 2
            (permissions
               (form_valid invitation_visit "tokenone" bob_logs_in
                  world_twice).2))
    = 2
  ∧ size (held_by 1 2
            (permissions
               (form_valid invitation_visit "tokenone" bob_logs_in
                  world_twice).2))
    ≠ 1.
Proof.
  assert (size (held_by 1 2
                  (permissions
                     (form_valid invitation_visit "tokenone" bob_logs_in
                        world_twice).2)) = 2) as Hsize
    by (vm_compute; reflexivity).
  split_and!.
  - vm_compute. reflexivity.
  - reflexivity.
  - reflexivity.
  - vm_compute. reflexivity.
  - exact Hsize.
  - rewrite Hsize. discriminate.
Qed.



(** Codes that differ in case only select the same invitations. *)
Lemma open_invitations_iexact
    (code code' : string) (tbl : gmap nat EventPermission) :
  Py.iexact code' code = true →
  open_invitations code' tbl = open_invitations code tbl.
Proof.
  intros Hcase. apply String.eqb_eq in Hcase.
  unfold open_invitations. apply map_filter_ext. intros k r _.
  unfold is_open_invitation, Py.iexact. by rewrite Hcase.
Qed.

(** C9: the invitation view resolves a code only to a permission without
    user whose token equals the code up to case; it answers 404 exactly when
    there is no such permission.  Once a user has accepted the invitation the
    code resolved to, the same code, in whatever case it is written, is
    answered with 404. *)
Theorem invitation_token_single_use
    (request : InvitationRequest) (code : string) (form : UserForm) (w : World)
    (us : gmap nat User) (u : nat) (usr : User) (p : PermObj) :
  (∀ p', (object code w).1 = Ok p' →
     ∃ k t, pk p' = Some k ∧ permissions w !! k = Some (row p')
            ∧ user (row p') = None
            ∧ invitation_token (row p') = Some t ∧ Py.iexact t code = true)
  ∧ (object code w = (Raise Http404, w) ↔
     ∀ k r t, permissions w !! k = Some r → user r = None →
              invitation_token r = Some t → Py.iexact t code = false)
  ∧ (save_form form (users w) = (us, Some u) →
     us !! u = Some usr →
     (object code w).1 = Ok p →
     ∃ w', form_valid request code form w
           = (Ok (Redirect (url_orga_base (event (row p)))), w')
       ∧ ∀ code', Py.iexact code' code = true →
           object code' w' = (Raise Http404, w')).
Proof.
  split; [|split].
  - intros p' Hobj.
    apply object_Ok in Hobj as (k & Hk & _ & Hrow & Hnone & t & Ht & Hmatch).
    by exists k, t.
  - rewrite object_run. split.
    + intros [= Hobj]. apply get_object_or_404_Http404 in Hobj.
      intros k r t Hk Hnone Ht.
      destruct (Py.iexact t code) eqn:Hmatch; [exfalso|done].
      assert (open_invitations code (permissions w) !! k = Some r) as Hin.
      { apply map_lookup_filter_Some. split; [done|].
        unfold is_open_invitation. simpl.
        by rewrite Ht, Hmatch, Hnone, bool_decide_eq_true_2. }
      by rewrite Hobj, lookup_empty in Hin.
    + intros Hnone. f_equal. apply get_object_or_404_Http404.
      apply map_empty. intros k. apply map_lookup_filter_None.
      destruct (permissions w !! k) as [r|] eqn:Hk; [right|by left].
      intros r' [= <-]. unfold is_open_invitation. simpl.
      intros Hopen. apply andb_true_iff in Hopen as [Htok Huser].
      apply bool_decide_eq_true in Huser.
      destruct (invitation_token r) as [t|] eqn:Ht; [|discriminate].
      by rewrite (Hnone k r t Hk Huser Ht) in Htok.
  - intros Hform Huser Hobj.
    destruct (object_Ok _ _ _ Hobj) as (k & Hk & Hopen & _).
    destruct p as [pk_ P]. simpl in *. subst pk_.
    destruct (accepted_rows request _ _ _ _ _ _ _ _ Hform Huser Hobj)
      as (w' & Hrun & Hrows).
    exists w'. split; [done|]. intros code' Hcase.
    rewrite object_run, (open_invitations_iexact _ _ _ Hcase).
    f_equal. apply get_object_or_404_Http404.
    apply map_empty. intros j. apply map_lookup_filter_None.
    destruct (permissions w' !! j) as [r|] eqn:Hj; [right|by left].
    intros r' [= <-]. unfold is_open_invitation. simpl. intros Hmatch.
    pose proof Hmatch as Hmatch'.
    apply andb_true_iff in Hmatch' as [_ Hnone].
    apply bool_decide_eq_true in Hnone.
    destruct (Hrows j r Hj) as [Hsome|[Hjk Hold]]; [done|].
    assert (open_invitations code (permissions w) !! j = Some r) as Hin
      by (apply map_lookup_filter_Some; by split).
    rewrite Hopen, lookup_singleton_ne in Hin; done.
Qed.

Lemma invitation_token_single_use_witness :
  (object "tokenone" world_invited).1 = Ok {| pk := Some 3; row := pending |}
  ∧ ∃ w', form_valid invitation_visit "tokenone" dave_registers world_invited
          = (Ok (Redirect (url_orga_base 1)), w')
      ∧ object "TOKENONE" w' = (Raise Http404, w').
Proof.
  split; [vm_compute; reflexivity|].
  destruct (proj2 (proj2 (invitation_token_single_use invitation_visit "tokenone"
                            dave_registers world_invited
                            (<[3 := dave]> {[ 1 := alice; 2 := bob ]}) 3 dave
                            {| pk := Some 3; row := pending |})))
    as (w' & Hrun & Hgone).
  - reflexivity.
  - vm_compute. reflexivity.
  - vm_compute. reflexivity.
  - exists w'. split; [exact Hrun|]. apply Hgone. vm_compute. reflexivity.
Defined.


(** *** The guards of [EventTeam.post] *)

Lemma count_orga_instances (ps : list PermObj) :
  _count_orga_permissions instance_is_orga ps
  = Ok (length (List.filter (λ p, is_orga (row p)) ps)).
Proof.
  induction ps as [|p ps IH]; simpl; [done|].
  rewrite IH. by destruct (is_orga (row p)).
Qed.

Lemma count_orga_pairs (cs : list (PermObj * list string)) :
  _count_orga_permissions pair_is_orga cs
  = match cs with
    | [] => Ok 0
    | _ :: _ => Raise AttributeError
    end.
Proof. by destruct cs. Qed.

(** The guard raises as soon as a form has changed, and otherwise compares
    the organizers added with the organizers deleted. *)
Lemma has_remaining_team_run (formset : Formset) :
  has_remaining_team formset
  = match changed_objects formset with
    | [] =>
        Ok (Z.of_nat (length (List.filter (λ p, is_orga (row p))
                                (new_objects formset)))
            - Z.of_nat (length (List.filter (λ p, is_orga (row p))
                                  (deleted_objects formset))) >? 0)%Z
    | _ :: _ => Raise AttributeError
    end.
Proof.
  unfold has_remaining_team.
  rewrite !count_orga_instances, count_orga_pairs.
  destruct (changed_objects formset); [|done].
  by rewrite Z.add_0_r.
Qed.

(** A valid submission that fails the guard on the remaining team gets the
    error message and the redirect, and nothing else happens. *)
Lemma lonely_event_changes_nothing
    (env : Env) (request : Request) (formset : Formset) (w : World) :
  fs_is_valid formset = true → has_remaining_team formset = Ok false →
  post env request formset w
  = (Ok (Redirect (url_team_settings (req_event request))),
     upd_messages (messages w ++ [{| level := Error; text := lonely_event |}]) w).
Proof.
  intros Hvalid Hteam. unfold post, post_body. rewrite Hvalid. simpl.
  unfold bind at 1. by rewrite Hteam.
Qed.

(** The guard passes only if no form has changed and one of the new
    instances is an organizer permission. *)
Lemma has_remaining_team_organizer (formset : Formset) :
  has_remaining_team formset = Ok true →
  changed_objects formset = []
  ∧ ∃ p, p ∈ formset_save formset ∧ is_orga (row p) = true.
Proof.
  rewrite has_remaining_team_run. unfold formset_save.
  destruct (changed_objects formset); [|discriminate].
  intros [= Hteam]. split; [done|]. simpl. apply Z.gtb_lt in Hteam.
  destruct (List.filter (λ p, is_orga (row p)) (new_objects formset))
    as [|p ps] eqn:Horga; [simpl in Hteam; lia|].
  exists p.
  assert (In p (List.filter (λ p, is_orga (row p)) (new_objects formset)))
    as Hin by (rewrite Horga; by left).
  apply List.filter_In in Hin as [Hin Hp].
  split; [by apply list_elem_of_In|done].
Qed.


(** C4: when the formset does not validate, the handler shows the error
    message and redirects to the team settings, and the world differs from
    the one before by that message only: no permission is created, changed or
    deleted.  The handler runs under [transaction.atomic]: whenever it raises,
    at whatever point, the permission table is the one it started from. *)
Theorem invalid_formset_changes_nothing
    (env : Env) (request : Request) (formset : Formset) (w : World) :
  (fs_is_valid formset = false →
     post env request formset w
     = (Ok (Redirect (url_team_settings (req_event request))),
        upd_messages
          (messages w ++ [{| level := Error; text := error_saving_changes env |}])
          w))
  ∧ (∀ e w', post env request formset w = (Raise e, w') →
       permissions w' = permissions w).
Proof.
  split.
  - intros Hinv. unfold post, post_body. by rewrite Hinv.
  - intros e w' Hrun. by apply atomic_Raise in Hrun as [? _].
Qed.

(** On the sample data: an invalid submission leaves alice's row alone, and a
    mail server failing after the invitation has been saved does not leave the
    saved row behind, although the undecorated body had written it. *)
Lemma invalid_formset_changes_nothing_witness :
  permissions (post quiet_env request0 formset_invalid world0).2
  = permissions world0
  ∧ (post_body smtp_down_env request0 formset_invite_carol world0).1
    = Raise (Failure "connection refused")
  ∧ is_Some (permissions
               (post_body smtp_down_env request0 formset_invite_carol world0).2
             !! 2)
  ∧ permissions (post smtp_down_env request0 formset_invite_carol world0).2
    = permissions world0.
Proof.
  split; [|split; [|split]].
  - pose proof (proj1 (invalid_formset_changes_nothing
                         quiet_env request0 formset_invalid world0) eq_refl)
      as Hrun.
    by rewrite Hrun.
  - reflexivity.
  - vm_compute. eauto.
  - apply (proj2 (invalid_formset_changes_nothing
                    smtp_down_env request0 formset_invite_carol world0)
             (Failure "connection refused")).
    vm_compute. reflexivity.
Defined.

(** C1: on the sample data alice, the only organizer of event 1, removes
    her own row and invites bob, who has an account, in two rows of the form,
    both naming his address.  The guard lets the submission through (two
    organizers added, one removed), the handler answers with the plain
    redirect and two success messages, and the event is left without any
    permission: each of the two rows bound to bob is deleted as the duplicate
    of the other. *)
Theorem last_organizer_removed :
  size (organizers 1 (permissions world0)) = 1
  ∧ fs_is_valid formset_replace = true
  ∧ has_remaining_team formset_replace = Ok true
  ∧ (post quiet_env request0 formset_replace world0).1
    = Ok (Redirect (url_team_settings 1))
  ∧ Forall (λ m, level m = Success)
      (messages (post quiet_env request0 formset_replace world0).2)
  ∧ permissions (post quiet_env request0 formset_replace world0).2 = ∅
  ∧ size (organizers 1
            (permissions (post quiet_env request0 formset_replace world0).2)) = 0.
Proof.
  repeat split; try (vm_compute; reflexivity).
  vm_compute. repeat constructor.
Qed.

(** C5: on the sample data alice invites bob, who has an account, by his
    address.  The permission is bound to bob, its invitation address and token
    are cleared, the invite mail is built from the cleared permission and
    sent, the action is logged; the success message is formatted from the
    cleared field and names nobody. *)
Theorem invitation_message_names_nobody :
  let r := post quiet_env request0 formset_invite_bob world0 in
  r.1 = Ok (Redirect (url_team_settings 1))
  ∧ permissions r.2 !! 2
    = Some (set_invitation_token None
              (set_invitation_email None
                 (set_user (Some 2) (row (invitation "bob@example.org" "tokenone")))))
  ∧ actions r.2 = [("pretalx.invite.orga.send", 1)]
  ∧ length (outbox r.2) = 1
  ∧ messages r.2
    = [{| level := Success;
          text := "<None> has been invited to your team - more team members help distribute the workload, so … yay!" |}]
  ∧ messages r.2
    ≠ [{| level := Success; text := invited_text (Some "bob@example.org") |}].
Proof.
  repeat split; try (vm_compute; reflexivity).
  vm_compute. discriminate.
Qed.

End TeamFacts.

(** * Further properties of the views *)

(** ** Event creation and editing, continued *)

Section EventDetailMore.
Import EventDetail.

(** X1: on an existing event the dispatch serves exactly the users who may
    change the settings.  Everybody else gets [PermissionDenied] with nothing
    run, so the read-only [view] action is never served. *)
Theorem edit_requires_change_settings
    (super_dispatch : M World Response) (request : Request) (w : World) :
  _action request ≠ create →
  (can_change_settings request = true →
     _action request = edit
     ∧ dispatch super_dispatch request w = super_dispatch w)
  ∧ (can_change_settings request = false →
     _action request = view
     ∧ dispatch super_dispatch request w = (Raise PermissionDenied, w)).
Proof.
  intros Hact. unfold dispatch. unfold _action in *.
  destruct (kwargs_event request); [|done].
  split; intros ->; by split.
Qed.

Lemma edit_requires_change_settings_witness :
  dispatch (form_valid Sample.reviewer_views Sample.edit_event_form)
    Sample.reviewer_views Sample.one_event
  = (Raise PermissionDenied, Sample.one_event)
  ∧ dispatch (form_valid (Sample.orga_edits true) Sample.edit_event_form)
      (Sample.orga_edits true) Sample.one_event
    = form_valid (Sample.orga_edits true) Sample.edit_event_form Sample.one_event.
Proof.
  split.
  - refine (proj2 (proj2 (edit_requires_change_settings _ Sample.reviewer_views
                            Sample.one_event _) eq_refl)).
    discriminate.
  - refine (proj2 (proj1 (edit_requires_change_settings _ (Sample.orga_edits true)
                            Sample.one_event _) eq_refl)).
    discriminate.
Defined.

(** X2: the event form handler is not all or nothing.  When an anonymous
    visitor submits a new event, the event is written and the message about
    the new event is shown, and then the handler raises [ValueError], because
    no log entry can be written for the anonymous user: no permission is
    created for the event and the stylesheet task is not dispatched. *)
Theorem anonymous_creation_saves_then_raises
    (request : Request) (form : EventForm) (w : World) :
  is_anonymous request = true →
  Py.truthy_pk (instance_pk form) = false →
  let k := match instance_pk form with
           | Some k => k
           | None => next_event_pk w
           end in
  ∃ w', form_valid request form w = (Raise ValueError, w')
    ∧ events w' !! k = Some (cleaned form)
    ∧ trace w' = trace w ++ [SavedForm k; Messaged Success (new_event_text k)].
Proof.
  intros Hanon Hnew k.
  unfold form_valid, log_action, create_permission. rewrite Hanon, Hnew. simpl.
  eexists. split; [reflexivity|]. simpl. fold k.
  split; [apply lookup_insert_eq|]. by rewrite <- !app_assoc.
Qed.

Lemma anonymous_creation_saves_then_raises_witness :
  ∃ w', form_valid Sample.anonymous_creates Sample.fresh_event_form
          Sample.one_event
        = (Raise ValueError, w')
    ∧ events w' !! 2 = Some (cleaned Sample.fresh_event_form)
    ∧ trace w' = [SavedForm 2; Messaged Success (new_event_text 2)].
Proof.
  exact (anonymous_creation_saves_then_raises Sample.anonymous_creates
           Sample.fresh_event_form Sample.one_event eq_refl eq_refl).
Defined.

End EventDetailMore.

(** ** Mail settings, continued *)

Section EventMailSettingsMore.
Import EventMailSettings.

(** X3: a submission without the field 'test' only saves: whatever the
    backend would answer, no test mail is attempted, the settings are the
    submitted ones, the one message shown is the plain confirmation and the
    response redirects to the mail settings. *)
Theorem mail_settings_without_test_field
    (backend : Backend) (request : Request) (form : Settings) (w : World) :
  Py.get (POST request) "test" = None →
  form_valid backend request form w
  = (Ok (Redirect (url_mail_settings (req_event request))),
     {| settings := form;
        trace := trace w ++ [SavedSettings form; Messaged Success saved_text] |}).
Proof.
  intros Hmissing. rewrite mail_form_valid_run.
  unfold wants_test, Py.get_default. by rewrite Hmissing.
Qed.

Lemma mail_settings_without_test_field_witness :
  form_valid Sample.unreachable Sample.mail_request_plain Sample.mail_form
    Sample.old_settings
  = (Ok (Redirect (url_mail_settings 1)),
     {| settings := Sample.mail_form;
        trace := [SavedSettings Sample.mail_form; Messaged Success saved_text] |}).
Proof.
  exact (mail_settings_without_test_field Sample.unreachable
           Sample.mail_request_plain Sample.mail_form Sample.old_settings
           eq_refl).
Defined.

End EventMailSettingsMore.

(** ** User settings, continued *)

Section UserSettingsMore.
Import UserSettings.

(** X4: the two forms of the user settings are bound by the field
    'action' of a POST, so never both at once and never on another method;
    and a form that is not bound does not validate. *)
Theorem user_forms_bound_exclusively (request : Request) :
  is_bound (login_form request) && is_bound (profile_form request) = false
  ∧ (method request ≠ "POST" →
     is_bound (login_form request) = false
     ∧ is_bound (profile_form request) = false)
  ∧ (is_valid (login_form request) = true →
     is_bound (login_form request) = true
     ∧ Py.get (POST request) "action" = Some "login")
  ∧ (is_valid (profile_form request) = true →
     is_bound (profile_form request) = true
     ∧ Py.get (POST request) "action" = Some "profile").
Proof.
  unfold login_form, profile_form, make_form. simpl.
  split; [|split; [|split]].
  - destruct (String.eqb (method request) "POST"); [simpl|done].
    case_bool_decide as Hlogin; [|done].
    rewrite Hlogin. by rewrite bool_decide_eq_false_2.
  - intros Hmethod.
    by destruct (String.eqb_spec (method request) "POST").
  - intros Hvalid. apply andb_true_iff in Hvalid as [Hbound _].
    split; [done|]. apply andb_true_iff in Hbound as [_ Haction].
    by apply bool_decide_eq_true in Haction.
  - intros Hvalid. apply andb_true_iff in Hvalid as [Hbound _].
    split; [done|]. apply andb_true_iff in Hbound as [_ Haction].
    by apply bool_decide_eq_true in Haction.
Qed.

Lemma user_forms_bound_exclusively_witness :
  is_bound (login_form Sample.settings_page_visit) = false
  ∧ is_bound (profile_form Sample.settings_page_visit) = false
  ∧ is_bound (login_form Sample.password_change) = true.
Proof.
  destruct (user_forms_bound_exclusively Sample.settings_page_visit)
    as (_ & Hget & _).
  destruct Hget as [Hl Hp]; [discriminate|].
  split; [exact Hl|]. split; [exact Hp|].
  apply (proj1 (proj2 (proj2 (user_forms_bound_exclusively
                                Sample.password_change)))).
  reflexivity.
Defined.

End UserSettingsMore.

Section UserContextFacts.
Import UserContext.

(** X5: the settings page gets or creates the API token of the user.  The
    token in the context is the one the table holds afterwards; a token the
    user already has is handed out as it is and the table is not written;
    nobody else's token changes; and rendering the page again, whatever key
    a new token would get, hands out the same token and writes nothing. *)
Theorem context_token_get_or_create
    (fresh_key other_key : string) (user : nat)
    (request request' : UserSettings.Request) (tokens : gmap nat string) :
  ∃ ctx tokens',
    get_context_data fresh_key user request tokens = (Ok ctx, tokens')
    ∧ tokens' !! user = Some (token ctx)
    ∧ (∀ key, tokens !! user = Some key → token ctx = key ∧ tokens' = tokens)
    ∧ (tokens !! user = None → token ctx = fresh_key)
    ∧ (∀ u, u ≠ user → tokens' !! u = tokens !! u)
    ∧ ∃ ctx', get_context_data other_key user request' tokens'
              = (Ok ctx', tokens')
        ∧ token ctx' = token ctx.
Proof.
  unfold get_context_data, bind, first_or_create, ret.
  destruct (tokens !! user) as [key|] eqn:Hkey.
  - eexists _, _. split; [reflexivity|]. simpl.
    split; [done|]. split; [by intros ? [= <-]|]. split; [done|].
    split; [done|]. rewrite Hkey. eauto.
  - eexists _, _. split; [reflexivity|]. simpl.
    split; [apply lookup_insert_eq|]. split; [done|]. split; [done|].
    split; [intros u Hu; by rewrite lookup_insert_ne|].
    rewrite lookup_insert_eq. eauto.
Qed.

Lemma context_token_get_or_create_witness :
  ∃ ctx, get_context_data "0a1b2c" 1 Sample.settings_page_visit {[ 1 := "f00d" ]}
         = (Ok ctx, {[ 1 := "f00d" ]})
    ∧ token ctx = "f00d".
Proof.
  destruct (context_token_get_or_create "0a1b2c" "0a1b2c" 1
              Sample.settings_page_visit Sample.settings_page_visit
              {[ 1 := "f00d" ]})
    as (ctx & tokens' & Hrun & _ & Hkeep & _).
  destruct (Hkeep "f00d") as [Htok Htbl]; [reflexivity|].
  exists ctx. rewrite Htbl in Hrun. by split.
Defined.

End UserContextFacts.

(** ** The team settings, continued *)

Section TeamMore.
Import Team Sample.

(** *** Looking a user up by nick or address *)

Lemma first_min {A} (m : gmap nat A) (k : nat) (a : A) :
  first m = Some (k, a) → ∀ j, is_Some (m !! j) → k ≤ j.
Proof.
  unfold first. intros Hfirst j [b Hj].
  apply elem_of_map_to_list in Hj. revert Hfirst Hj.
  generalize (map_to_list m). intros l. revert k a.
  induction l as [|[i c] l IH]; intros k a; simpl; [discriminate|].
  intros Hfirst Hin.
  destruct (foldr _ None l) as [[i' c']|] eqn:Hrest.
  - case_decide as Hlt; injection Hfirst as <- <-.
    + apply elem_of_cons in Hin as [[= -> ->]|Hin]; [simpl in Hlt; lia|].
      by eapply IH.
    + apply elem_of_cons in Hin as [[= -> ->]|Hin]; [done|].
      simpl in Hlt. pose proof (IH _ _ eq_refl Hin). lia.
  - injection Hfirst as <- <-.
    apply elem_of_cons in Hin as [[= -> ->]|Hin]; [done|].
    destruct l as [|[i' c'] l]; [by apply not_elem_of_nil in Hin|].
    simpl in Hrest. destruct (foldr _ None l); [case_decide|]; discriminate.
Qed.

(** X6: [_find_user] only reads.  What it returns is a user whose nick or
    whose address is the given string, and it returns nobody exactly when
    there is no such user.  A nick match goes first: if some user has the
    string as nick, the result is the one of them with the smallest key, even
    when the string is the address of another user. *)
Theorem find_user_by_nick_then_address (address : string) (w : World) :
  ∃ found,
    _find_user address w = (Ok found, w)
    ∧ (∀ u, found = Some u →
         ∃ usr, users w !! u = Some usr
                ∧ (nick usr = address ∨ email usr = address))
    ∧ (found = None ↔
       ∀ u usr, users w !! u = Some usr →
                nick usr ≠ address ∧ email usr ≠ address)
    ∧ (∀ u usr, users w !! u = Some usr → nick usr = address →
         ∃ u' usr', found = Some u' ∧ users w !! u' = Some usr'
                    ∧ nick usr' = address ∧ u' ≤ u).
Proof.
  unfold _find_user, gets. eexists. split; [reflexivity|].
  destruct (first (filter (λ kv, nick kv.2 = address) (users w)))
    as [[k usr]|] eqn:Hnick.
  - pose proof (first_min _ _ _ Hnick) as Hmin.
    apply first_elem, map_lookup_filter_Some in Hnick as [Hk Hn].
    simpl in Hn. split; [|split].
    + intros u [= <-]. eauto.
    + split; [done|]. intros Hnone. by destruct (Hnone k usr Hk).
    + intros u usr' Hu Hn'. exists k, usr. repeat split; try done.
      apply Hmin. exists usr'. by apply map_lookup_filter_Some.
  - apply first_None in Hnick.
    assert (∀ u usr, users w !! u = Some usr → nick usr ≠ address) as Hno_nick.
    { intros u usr Hu Hn.
      assert (filter (λ kv, nick kv.2 = address) (users w) !! u = Some usr)
        as Hin by by apply map_lookup_filter_Some.
      by rewrite Hnick, lookup_empty in Hin. }
    destruct (first (filter (λ kv, email kv.2 = address) (users w)))
      as [[k usr]|] eqn:Hmail.
    + apply first_elem, map_lookup_filter_Some in Hmail as [Hk He].
      simpl in He. split; [|split].
      * intros u [= <-]. eauto.
      * split; [done|]. intros Hnone. by destruct (Hnone k usr Hk).
      * intros u usr' Hu Hn'. by destruct (Hno_nick u usr' Hu).
    + apply first_None in Hmail. split; [|split].
      * done.
      * split; [|done]. intros _ u usr Hu. split; [by eapply Hno_nick|].
        intros He.
        assert (filter (λ kv, email kv.2 = address) (users w) !! u = Some usr)
          as Hin by by apply map_lookup_filter_Some.
        by rewrite Hmail, lookup_empty in Hin.
      * intros u usr' Hu Hn'. by destruct (Hno_nick u usr' Hu).
Qed.

Lemma find_user_by_nick_then_address_witness :
  _find_user "bob" world0 = (Ok (Some 2), world0).
Proof.
  destruct (find_user_by_nick_then_address "bob" world0)
    as (found & Hrun & _ & _ & Hnick).
  destruct (Hnick 2 bob eq_refl eq_refl) as (u' & usr' & -> & Hu' & _ & Hle).
  assert (u' = 2) as ->.
  { destruct u' as [|[|[|n]]]; [discriminate| |reflexivity|lia].
    vm_compute in Hu'. injection Hu' as <-. discriminate. }
  exact Hrun.
Defined.

(** *** What a team POST leaves alone *)

Lemma leaves_accounts_ret {A} (a : A) : leaves_accounts (ret a).
Proof. by intros w. Qed.

Lemma leaves_accounts_raise {A} (e : Exn) : leaves_accounts (@raise World A e).
Proof. by intros w. Qed.

Lemma leaves_accounts_bind {A B} (m : M World A) (k : A → M World B) :
  leaves_accounts m → (∀ a, leaves_accounts (k a)) →
  leaves_accounts (bind m k).
Proof.
  intros Hm Hk w. unfold bind. specialize (Hm w).
  destruct (m w) as [[a|e] w1]; simpl in *; [|done].
  destruct Hm as [Hu0 Hs0]. destruct (Hk a w1) as [Hu Hs].
  split; congruence.
Qed.

Lemma leaves_accounts_for_each {A} (body : A → M World unit) (xs : list A) :
  (∀ x, leaves_accounts (body x)) → leaves_accounts (for_each body xs).
Proof.
  intros Hbody. induction xs as [|x xs IH]; simpl.
  - apply leaves_accounts_ret.
  - by apply leaves_accounts_bind.
Qed.

Lemma leaves_accounts_atomic {A} (m : M World A) :
  leaves_accounts m → leaves_accounts (atomic m).
Proof.
  intros Hm w. unfold atomic. specialize (Hm w).
  destruct (m w) as [[a|e] w1]; simpl in *; [done|].
  destruct Hm as [_ Hs]. by split.
Qed.

Lemma leaves_accounts_save (p : PermObj) : leaves_accounts (save p).
Proof. intros w. unfold save. by destruct (pk p). Qed.

Lemma leaves_accounts_delete_obj (p : PermObj) : leaves_accounts (delete_obj p).
Proof. intros w. unfold delete_obj. by destruct (pk p). Qed.

Lemma leaves_accounts_send (env : Env) (m : Mail) : leaves_accounts (send env m).
Proof. intros w. unfold send. by destruct (send_error env m). Qed.

Lemma leaves_accounts_delete_duplicates (p : PermObj) :
  leaves_accounts (delete_duplicates p).
Proof. intros w. unfold delete_duplicates. by destruct (user (row p)). Qed.

Lemma leaves_accounts_send_invite_email (env : Env) (p : PermObj) :
  leaves_accounts (send_invite_email env p).
Proof.
  unfold send_invite_email. apply leaves_accounts_bind.
  - destruct (user (row p)); [done|apply leaves_accounts_save].
  - intros q w. by destruct (invite_error env q).
Qed.

Lemma leaves_accounts_invite_and_save
    (env : Env) (request : Request) (p : PermObj) :
  leaves_accounts (invite_and_save env request p).
Proof.
  unfold invite_and_save. destruct (Py.truthy_str _).
  - apply leaves_accounts_bind; [done|]. intros u.
    apply leaves_accounts_bind; [apply leaves_accounts_send_invite_email|].
    intros mail. apply leaves_accounts_bind; [done|]. intros _.
    apply leaves_accounts_bind; [done|]. intros _.
    apply leaves_accounts_bind; [apply leaves_accounts_save|]. intros q.
    apply leaves_accounts_ret.
  - apply leaves_accounts_bind; [apply leaves_accounts_save|]. intros q.
    apply leaves_accounts_ret.
Qed.

Lemma leaves_accounts_invite_and_save_all
    (env : Env) (request : Request) (ps : list PermObj) :
  leaves_accounts (invite_and_save_all env request ps).
Proof.
  induction ps as [|p ps IH]; simpl; [apply leaves_accounts_ret|].
  apply leaves_accounts_bind; [apply leaves_accounts_invite_and_save|].
  intros r. apply leaves_accounts_bind; [done|]. intros rs.
  apply leaves_accounts_ret.
Qed.

(** X8: a team POST never creates or changes a user account and never logs
    anybody in, whether it goes through, is refused by a guard or fails on
    the way. *)
Theorem team_post_leaves_accounts
    (env : Env) (request : Request) (formset : Formset) (w : World) :
  users (post env request formset w).2 = users w
  ∧ session (post env request formset w).2 = session w.
Proof.
  revert w. change (leaves_accounts (post env request formset)).
  unfold post. apply leaves_accounts_atomic. unfold post_body.
  destruct (negb (fs_is_valid formset)).
  { apply leaves_accounts_bind; [done|]. intros _. apply leaves_accounts_ret. }
  apply leaves_accounts_bind; [done|]. intros remaining.
  destruct (negb remaining).
  { apply leaves_accounts_bind; [done|]. intros _. apply leaves_accounts_ret. }
  apply leaves_accounts_bind.
  { apply leaves_accounts_for_each, leaves_accounts_delete_obj. }
  intros _. apply leaves_accounts_bind.
  { apply leaves_accounts_invite_and_save_all. }
  intros saved. apply leaves_accounts_bind.
  { apply leaves_accounts_for_each, leaves_accounts_delete_duplicates. }
  intros _. apply leaves_accounts_bind.
  { apply leaves_accounts_for_each, leaves_accounts_send. }
  intros _. apply leaves_accounts_ret.
Qed.

(** *** Invitations sent by a team POST *)

(** X9: when the invited address belongs to the user [u], the first loop
    binds the permission to [u] and clears its invitation address and token
    before anything else happens: the invite mail is built from the cleared
    permission, the row is saved cleared, with its flags as submitted, and
    the success message, formatted from the cleared address, names [None]. *)
Theorem invitation_binds_existing_user
    (env : Env) (request : Request) (p : PermObj) (address : string)
    (u : nat) (w : World) :
  invitation_email (row p) = Some address → address ≠ "" →
  _find_user address w = (Ok (Some u), w) →
  invite_error env (bound_to u p) = None →
  ∃ k w', invite_and_save env request p w
          = (Ok ({| pk := Some k; row := row (bound_to u p) |},
                 [{| invite_for := bound_to u p |}]), w')
    ∧ permissions w' = <[k := row (bound_to u p)]> (permissions w)
    ∧ user (row (bound_to u p)) = Some u
    ∧ invitation_email (row (bound_to u p)) = None
    ∧ invitation_token (row (bound_to u p)) = None
    ∧ is_orga (row (bound_to u p)) = is_orga (row p)
    ∧ is_reviewer (row (bound_to u p)) = is_reviewer (row p)
    ∧ messages w'
      = messages w ++ [{| level := Success; text := invited_text None |}].
Proof.
  intros Hmail Hne Hfind Hinvite. unfold invite_and_save.
  rewrite Hmail. simpl.
  destruct (String.eqb_spec address "") as [|_]; [done|]. simpl.
  rewrite (bind_run _ _ _ _ _ Hfind).
  fold (bound_to u p).
  unfold send_invite_email.
  change (user (row (bound_to u p))) with (Some u).
  unfold bind at 2. unfold ret at 1. rewrite Hinvite.
  unfold bind, ret, log_action, add_message, modify, save.
  destruct p as [[k|] r]; simpl; eexists _, _; (split; [reflexivity|done]).
Qed.

Lemma invitation_binds_existing_user_witness :
  ∃ w', invite_and_save quiet_env request0
          (invitation "bob@example.org" "tokenone") world0
        = (Ok ({| pk := Some 2;
                  row := row (bound_to 2 (invitation "bob@example.org" "tokenone")) |},
               [{| invite_for := bound_to 2 (invitation "bob@example.org" "tokenone") |}]),
           w')
    ∧ permissions w' !! 2
      = Some (row (bound_to 2 (invitation "bob@example.org" "tokenone"))).
Proof.
  destruct (invitation_binds_existing_user quiet_env request0
              (invitation "bob@example.org" "tokenone") "bob@example.org"
              2 world0)
    as (k & w' & Hrun & Htbl & _).
  - reflexivity.
  - discriminate.
  - vm_compute. reflexivity.
  - reflexivity.
  - assert (k = 2) as ->.
    { assert ((invite_and_save quiet_env request0
                 (invitation "bob@example.org" "tokenone") world0).1
              = Ok ({| pk := Some 2;
                       row := row (bound_to 2
                                     (invitation "bob@example.org" "tokenone")) |},
                    [{| invite_for :=
                          bound_to 2 (invitation "bob@example.org" "tokenone") |}]))
        as Hval by (vm_compute; reflexivity).
      rewrite Hrun in Hval. simpl in Hval. by injection Hval. }
    exists w'. split; [exact Hrun|]. rewrite Htbl. apply lookup_insert_eq.
Defined.


(** What one round of the first loop does besides writing the row. *)
Lemma invite_and_save_effects
    (env : Env) (request : Request) (p p' : PermObj) (ms : list Mail)
    (w w1 : World) :
  invite_and_save env request p w = (Ok (p', ms), w1) →
  outbox w1 = outbox w
  ∧ length ms = (if carries_invitation p then 1 else 0)
  ∧ actions w1
    = actions w ++ replicate (length ms)
                     ("pretalx.invite.orga.send", req_user request)
  ∧ (∃ msgs, messages w1 = messages w ++ msgs
             ∧ length msgs = length ms
             ∧ Forall (λ m, level m = Success) msgs)
  ∧ event (row p') = event (row p)
  ∧ is_orga (row p') = is_orga (row p)
  ∧ is_reviewer (row p') = is_reviewer (row p).
Proof.
  unfold invite_and_save, carries_invitation.
  destruct (Py.truthy_str (invitation_email (row p))).
  - intros Hrun.
    apply bind_Ok in Hrun as (u & w2 & Hfind & Hrun).
    injection Hfind as _ <-.
    apply bind_Ok in Hrun as ([q0 mail] & w2 & Hmail & Hrun).
    apply send_invite_email_Ok in Hmail
      as (_ & (Ho & Ha & Hm) & (He & _ & Hor & Hrv & _) & _).
    apply bind_Ok in Hrun as ([] & w3 & [= <-] & Hrun).
    apply bind_Ok in Hrun as ([] & w4 & [= <-] & Hrun).
    apply bind_Ok in Hrun as (q & w5 & Hsave & [= <- <- <-]).
    simpl in Hsave.
    pose proof (save_effects _ _ _ _ Hsave) as (Ho' & Ha' & Hm').
    apply save_Ok in Hsave as (k & -> & _). simpl in *.
    split; [congruence|]. split; [done|].
    split; [by rewrite Ha', Ha|].
    split.
    { eexists. rewrite Hm', Hm. split; [reflexivity|].
      split; [done|]. by repeat constructor. }
    rewrite He, Hor, Hrv. by destruct u.
  - intros Hrun.
    apply bind_Ok in Hrun as (q & w2 & Hsave & [= <- <- <-]).
    pose proof (save_effects _ _ _ _ Hsave) as (Ho' & Ha' & Hm').
    apply save_Ok in Hsave as (k & -> & _). simpl.
    split; [done|]. split; [done|].
    split; [by rewrite Ha', app_nil_r|].
    split; [|done]. exists []. by rewrite app_nil_r.
Qed.

Lemma invite_and_save_all_effects
    (env : Env) (request : Request) (ps saved : list PermObj)
    (mails : list Mail) (w w1 : World) :
  invite_and_save_all env request ps w = (Ok (saved, mails), w1) →
  outbox w1 = outbox w
  ∧ length mails = length (List.filter carries_invitation ps)
  ∧ actions w1
    = actions w ++ replicate (length mails)
                     ("pretalx.invite.orga.send", req_user request)
  ∧ (∃ msgs, messages w1 = messages w ++ msgs
             ∧ length msgs = length mails
             ∧ Forall (λ m, level m = Success) msgs)
  ∧ Forall2 (λ p p', event (row p') = event (row p)
                     ∧ is_orga (row p') = is_orga (row p)
                     ∧ is_reviewer (row p') = is_reviewer (row p)) ps saved.
Proof.
  revert saved mails w. induction ps as [|p ps IH]; intros saved mails w; simpl.
  - intros [= <- <- <-]. simpl. rewrite app_nil_r.
    split; [done|]. split; [done|]. split; [done|].
    split; [exists []; by rewrite app_nil_r|constructor].
  - intros Hrun.
    apply bind_Ok in Hrun as ([p' ms] & w2 & Hone & Hrun).
    apply bind_Ok in Hrun as ([saved' mails'] & w3 & Hrest & [= <- <- <-]).
    apply invite_and_save_effects in Hone
      as (Hout & Hlen & Hact & (msgs & Hmsg & Hmlen & Hlev) & Hev & Ho & Hr).
    apply IH in Hrest
      as (Hout' & Hlen' & Hact' & (msgs' & Hmsg' & Hmlen' & Hlev') & Hall).
    simpl. rewrite length_app.
    split; [congruence|]. split.
    { rewrite Hlen, Hlen'. by destruct (carries_invitation p). }
    split.
    { rewrite Hact', Hact, <- app_assoc. f_equal. by rewrite replicate_add. }
    split.
    { exists (msgs ++ msgs'). rewrite Hmsg', Hmsg, <- app_assoc.
      split; [done|]. rewrite length_app.
      split; [congruence|by apply Forall_app]. }
    by constructor.
Qed.

Lemma delete_all_effects (ds : list PermObj) (w w1 : World) :
  for_each delete_obj ds w = (Ok tt, w1) →
  outbox w1 = outbox w ∧ actions w1 = actions w ∧ messages w1 = messages w.
Proof.
  revert w. induction ds as [|d ds IH]; intros w; simpl.
  - by intros [= <-].
  - intros Hrun. apply bind_Ok in Hrun as ([] & w0 & Hd & Hrest).
    apply IH in Hrest as (-> & -> & ->).
    unfold delete_obj in Hd. destruct (pk d); [|discriminate].
    by injection Hd as <-.
Qed.

Lemma delete_duplicates_all_effects (saved : list PermObj) (w w1 : World) :
  for_each delete_duplicates saved w = (Ok tt, w1) →
  outbox w1 = outbox w ∧ actions w1 = actions w ∧ messages w1 = messages w.
Proof.
  revert w. induction saved as [|p saved IH]; intros w; simpl.
  - by intros [= <-].
  - intros Hrun. apply bind_Ok in Hrun as ([] & w0 & Hd & Hrest).
    apply IH in Hrest as (-> & -> & ->).
    unfold delete_duplicates in Hd.
    destruct (user (row p)); by injection Hd as <-.
Qed.

Lemma send_all_effects (env : Env) (mails : list Mail) (w w1 : World) :
  for_each (send env) mails w = (Ok tt, w1) →
  outbox w1 = outbox w ++ mails
  ∧ actions w1 = actions w ∧ messages w1 = messages w.
Proof.
  revert w. induction mails as [|m mails IH]; intros w; simpl.
  - intros [= <-]. by rewrite app_nil_r.
  - intros Hrun. apply bind_Ok in Hrun as ([] & w0 & Hone & Hrest).
    apply IH in Hrest as (-> & -> & ->).
    unfold send in Hone. destruct (send_error env m); [discriminate|].
    injection Hone as <-. simpl. by rewrite <- app_assoc.
Qed.

(** X10: on a team POST that passes both guards and completes, one invite
    mail is sent, one invite action is logged for the requesting user and one
    success message is shown for each submitted permission (new or changed)
    that carries an invitation address, and nothing else is sent, logged or
    shown. *)
Theorem one_invite_per_address
    (env : Env) (request : Request) (formset : Formset)
    (w w' : World) (resp : Response) :
  fs_is_valid formset = true → has_remaining_team formset = Ok true →
  post env request formset w = (Ok resp, w') →
  let n := length (List.filter carries_invitation (formset_save formset)) in
  (∃ mails, outbox w' = outbox w ++ mails ∧ length mails = n)
  ∧ actions w'
    = actions w ++ replicate n ("pretalx.invite.orga.send", req_user request)
  ∧ (∃ msgs, messages w' = messages w ++ msgs ∧ length msgs = n
             ∧ Forall (λ m, level m = Success) msgs).
Proof.
  intros Hvalid Hteam Hrun n.
  destruct (post_Ok_stages _ _ _ _ _ _ Hvalid Hteam Hrun)
    as (w1 & w2 & w3 & mails & Hdel & Hsave & Hdup & Hsend & _).
  apply delete_all_effects in Hdel as (Ho1 & Ha1 & Hm1).
  apply invite_and_save_all_effects in Hsave
    as (Ho2 & Hlen & Ha2 & (msgs & Hm2 & Hmlen & Hlev) & _).
  apply delete_duplicates_all_effects in Hdup as (Ho3 & Ha3 & Hm3).
  apply send_all_effects in Hsend as (Ho4 & Ha4 & Hm4).
  split; [|split].
  - exists mails. split; [congruence|done].
  - rewrite Ha4, Ha3, Ha2, Ha1. by rewrite Hlen.
  - exists msgs. rewrite Hm4, Hm3, Hm2, Hm1. split; [done|].
    split; [by rewrite Hmlen, Hlen|done].
Qed.

Lemma one_invite_per_address_witness :
  length (outbox (post quiet_env request0 formset_invite_two world0).2) = 2
  ∧ actions (post quiet_env request0 formset_invite_two world0).2
    = [("pretalx.invite.orga.send", 1); ("pretalx.invite.orga.send", 1)].
Proof.
  destruct (one_invite_per_address quiet_env request0 formset_invite_two world0
              (post quiet_env request0 formset_invite_two world0).2
              (Redirect (url_team_settings 1)) eq_refl eq_refl)
    as ((mails & Hout & Hlen) & Hact & _).
  - vm_compute. reflexivity.
  - split; [|exact Hact]. rewrite Hout, length_app, Hlen. reflexivity.
Defined.

(** *** The rows a team POST writes and the rows it leaves *)

Lemma delete_all_lookup (ds : list PermObj) (w w1 : World) (j : nat) :
  for_each delete_obj ds w = (Ok tt, w1) →
  (∀ d, d ∈ ds → pk d ≠ Some j) →
  permissions w1 !! j = permissions w !! j.
Proof.
  revert w. induction ds as [|d ds IH]; intros w; simpl.
  - by intros [= <-].
  - intros Hrun Hkeys. apply bind_Ok in Hrun as ([] & w0 & Hd & Hrest).
    rewrite (IH _ Hrest) by (intros d' Hd'; apply Hkeys; by right).
    unfold delete_obj in Hd. destruct (pk d) as [k|] eqn:Hk; [|discriminate].
    injection Hd as <-. simpl. apply lookup_delete_ne.
    intros ->. by apply (Hkeys d); [left|].
Qed.

Lemma invite_and_save_all_rows
    (env : Env) (request : Request) (ps saved : list PermObj)
    (mails : list Mail) (w w1 : World) :
  invite_and_save_all env request ps w = (Ok (saved, mails), w1) →
  (∀ p, p ∈ saved → is_Some (pk p))
  ∧ (∀ j, (∀ p, p ∈ saved → pk p ≠ Some j) →
       permissions w1 !! j = permissions w !! j)
  ∧ (NoDup (pk <$> saved) →
     ∀ p k, p ∈ saved → pk p = Some k → permissions w1 !! k = Some (row p)).
Proof.
  revert saved mails w. induction ps as [|p ps IH]; intros saved mails w; simpl.
  - intros [= <- _ <-]. split; [|split].
    + intros p Hp. by apply not_elem_of_nil in Hp.
    + done.
    + intros _ p k Hp. by apply not_elem_of_nil in Hp.
  - intros Hrun.
    apply bind_Ok in Hrun as ([p' ms] & w2 & Hone & Hrun).
    apply bind_Ok in Hrun as ([saved' mails'] & w3 & Hrest & [= <- _ <-]).
    apply invite_and_save_Ok in Hone as (k0 & Hk0 & Htbl).
    destruct (IH _ _ _ Hrest) as (Hkeys & Hframe & Hstored). simpl.
    split; [|split].
    + intros q Hq. apply elem_of_cons in Hq as [->|Hq]; [by eexists|eauto].
    + intros j Hj.
      rewrite Hframe by (intros q Hq; apply Hj; by right).
      rewrite Htbl. apply lookup_insert_ne. intros ->.
      by apply (Hj p'); [left|].
    + intros Hnodup q k Hq Hk.
      apply NoDup_cons in Hnodup as [Hfresh Hnodup].
      apply elem_of_cons in Hq as [->|Hq]; [|by eapply Hstored].
      assert (k = k0) as -> by congruence.
      rewrite Hframe, Htbl; [apply lookup_insert_eq|].
      intros q Hq Hqk. apply Hfresh. rewrite Hk0, <- Hqk.
      by apply list_elem_of_fmap_2.
Qed.

Lemma delete_duplicates_all_table (saved : list PermObj) (w w1 : World) :
  for_each delete_duplicates saved w = (Ok tt, w1) →
  permissions w1
  = filter (λ kv, duplicate_of_some saved kv = false) (permissions w).
Proof.
  revert w. induction saved as [|p saved IH]; intros w; simpl.
  - intros [= <-]. symmetry. by apply map_filter_id.
  - intros Hrun. apply bind_Ok in Hrun as ([] & w0 & Hone & Hrest).
    rewrite (IH _ Hrest). unfold delete_duplicates in Hone.
    destruct (user (row p)); injection Hone as <-; simpl; [|done].
    apply map_eq. intros j. apply option_eq. intros r.
    rewrite !map_lookup_filter_Some. simpl.
    rewrite orb_false_iff. tauto.
Qed.

(** X11: a team POST that passes both guards and completes leaves alone
    every row that is not the row of a deleted form, is not stored under the
    key of a saved permission and is not, for a saved permission with a user
    attached, another row of the same event and user. *)
Theorem team_post_leaves_other_rows
    (env : Env) (request : Request) (formset : Formset)
    (w w' : World) (resp : Response) (k : nat) (r : EventPermission) :
  fs_is_valid formset = true → has_remaining_team formset = Ok true →
  post env request formset w = (Ok resp, w') →
  permissions w !! k = Some r →
  (∀ d, d ∈ deleted_objects formset → pk d ≠ Some k) →
  (∀ p, p ∈ saved_instances env request formset w → pk p ≠ Some k) →
  duplicate_of_some (saved_instances env request formset w) (k, r) = false →
  permissions w' !! k = Some r.
Proof.
  intros Hvalid Hteam Hrun Hk Hdeleted Hsaved Hdup.
  destruct (post_Ok_stages _ _ _ _ _ _ Hvalid Hteam Hrun)
    as (w1 & w2 & w3 & mails & Hdel & Hsave & Hdedup & Hsend & _).
  rewrite (send_all_permissions _ _ _ _ Hsend).
  rewrite (delete_duplicates_all_table _ _ _ Hdedup).
  apply map_lookup_filter_Some. split; [|done].
  destruct (invite_and_save_all_rows _ _ _ _ _ _ _ Hsave) as (_ & Hframe & _).
  rewrite Hframe by done. by rewrite (delete_all_lookup _ _ _ _ Hdel).
Qed.

Lemma team_post_leaves_other_rows_witness :
  permissions (post quiet_env request0 formset_invite_bob world_two_events).2 !! 7
  = Some erin_orga
  ∧ permissions (post quiet_env request0 formset_invite_bob world_two_events).2 !! 1
    = Some alice_orga.
Proof.
  assert (saved_instances quiet_env request0 formset_invite_bob world_two_events
          = [ {| pk := Some 8;
                 row := row (bound_to 2 (invitation "bob@example.org" "tokenone")) |} ])
    as Hsaved by (vm_compute; reflexivity).
  split.
  - apply (team_post_leaves_other_rows quiet_env request0 formset_invite_bob
             world_two_events _ (Redirect (url_team_settings 1)) 7 erin_orga
             eq_refl eq_refl).
    + vm_compute. reflexivity.
    + reflexivity.
    + intros d Hd. by apply not_elem_of_nil in Hd.
    + rewrite Hsaved. intros p Hp. apply list_elem_of_singleton in Hp as ->.
      discriminate.
    + rewrite Hsaved. reflexivity.
  - apply (team_post_leaves_other_rows quiet_env request0 formset_invite_bob
             world_two_events _ (Redirect (url_team_settings 1)) 1 alice_orga
             eq_refl eq_refl).
    + vm_compute. reflexivity.
    + reflexivity.
    + intros d Hd. by apply not_elem_of_nil in Hd.
    + rewrite Hsaved. intros p Hp. apply list_elem_of_singleton in Hp as ->.
      discriminate.
    + rewrite Hsaved. reflexivity.
Defined.

(** X12: the guard on the remaining team does what it is for when the
    saved permissions have different keys and none of them is deleted as the
    duplicate of another.  On a POST that passes both guards and completes,
    every saved permission is then in the table as it was saved, and one of
    them is an organizer permission. *)
Theorem organizer_remains_without_duplicates
    (env : Env) (request : Request) (formset : Formset)
    (w w' : World) (resp : Response) :
  fs_is_valid formset = true → has_remaining_team formset = Ok true →
  post env request formset w = (Ok resp, w') →
  NoDup (pk <$> saved_instances env request formset w) →
  no_mutual_duplicates (saved_instances env request formset w) = true →
  (∀ p, p ∈ saved_instances env request formset w →
     ∃ k, pk p = Some k ∧ permissions w' !! k = Some (row p))
  ∧ ∃ p k, p ∈ saved_instances env request formset w
           ∧ pk p = Some k ∧ is_orga (row p) = true
           ∧ permissions w' !! k = Some (row p).
Proof.
  intros Hvalid Hteam Hrun Hnodup Hmutual.
  destruct (post_Ok_stages _ _ _ _ _ _ Hvalid Hteam Hrun)
    as (w1 & w2 & w3 & mails & Hdel & Hsave & Hdedup & Hsend & _).
  destruct (invite_and_save_all_rows _ _ _ _ _ _ _ Hsave)
    as (Hkeys & _ & Hstored).
  assert (∀ p, p ∈ saved_instances env request formset w →
            ∃ k, pk p = Some k ∧ permissions w' !! k = Some (row p)) as Hall.
  { intros p Hp. destruct (Hkeys p Hp) as [k Hk]. exists k. split; [done|].
    rewrite (send_all_permissions _ _ _ _ Hsend).
    rewrite (delete_duplicates_all_table _ _ _ Hdedup).
    apply map_lookup_filter_Some. split; [by apply Hstored|].
    unfold no_mutual_duplicates in Hmutual.
    rewrite forallb_forall in Hmutual.
    apply list_elem_of_In, Hmutual in Hp. rewrite Hk in Hp.
    by apply negb_true_iff in Hp. }
  split; [exact Hall|].
  destruct (has_remaining_team_organizer _ Hteam) as (_ & p0 & Hp0 & Horga).
  apply invite_and_save_all_effects in Hsave as (_ & _ & _ & _ & Hrel).
  apply list_elem_of_lookup in Hp0 as [i Hi].
  destruct (Forall2_lookup_l _ _ _ _ _ Hrel Hi) as (p & Hp & _ & Ho & _).
  assert (p ∈ saved_instances env request formset w) as Hin
    by (apply list_elem_of_lookup; eauto).
  destruct (Hall p Hin) as (k & Hk & Hrow).
  exists p, k. repeat split; try done. congruence.
Qed.

Lemma organizer_remains_without_duplicates_witness :
  permissions (post quiet_env request0 formset_invite_two world0).2 !! 2
  = Some (set_invitation_token (Some "drawncarol@example.org")
            (row (invitation "carol@example.org" "tokenone")))
  ∧ permissions (post quiet_env request0 formset_invite_two world0).2 !! 3
    = Some (row (bound_to 2 (invitation "bob@example.org" "tokentwo"))).
Proof.
  assert (saved_instances quiet_env request0 formset_invite_two world0
          = [ {| pk := Some 2;
                 row := set_invitation_token (Some "drawncarol@example.org")
                          (row (invitation "carol@example.org" "tokenone")) |};
              {| pk := Some 3;
                 row := row (bound_to 2 (invitation "bob@example.org" "tokentwo")) |} ])
    as Hsaved by (vm_compute; reflexivity).
  destruct (organizer_remains_without_duplicates quiet_env request0
              formset_invite_two world0
              (post quiet_env request0 formset_invite_two world0).2
              (Redirect (url_team_settings 1)) eq_refl eq_refl)
    as [Hall _].
  - vm_compute. reflexivity.
  - rewrite Hsaved. simpl. apply NoDup_cons. split.
    + intros Hin. apply list_elem_of_singleton in Hin. discriminate.
    + apply NoDup_singleton.
  - rewrite Hsaved. reflexivity.
  - rewrite Hsaved in Hall. split.
    + destruct (Hall _ (list_elem_of_here _ _)) as (k & Hk & Hrow).
      injection Hk as <-. exact Hrow.
    + destruct (Hall _ (list_elem_of_further _ _ _ (list_elem_of_here _ _)))
        as (k & Hk & Hrow).
      injection Hk as <-. exact Hrow.
Defined.

End TeamMore.

(** ** Invitations, continued *)

Section InvitationMore.
Import Team Sample.

(** X14: when the form identifies nobody, or somebody who is not in the
    user table, the handler shows the authentication error and then asks the
    request for its event.  On the invitation route the request carries
    none, and the handler raises [AttributeError]; a request that carries an
    event is redirected to the page of that event.  Either way no permission
    changes and nobody is logged in, so the invitation is not used up: the
    code still resolves to it. *)
Theorem failed_authentication_keeps_invitation
    (request : InvitationRequest) (code : string) (form : UserForm) (w : World)
    (us : gmap nat User) (user_id : option nat) (p : PermObj) :
  save_form form (users w) = (us, user_id) →
  (∀ i, user_id = Some i → us !! i = None) →
  (object code w).1 = Ok p →
  ∃ w', form_valid request code form w
        = (match inv_event request with
           | Some e => Ok (Redirect (url_event_base e))
           | None => Raise AttributeError
           end, w')
    ∧ permissions w' = permissions w
    ∧ session w' = session w
    ∧ actions w' = actions w
    ∧ messages w' = messages w ++ [{| level := Error; text := auth_problem |}]
    ∧ (object code w').1 = Ok p.
Proof.
  intros Hform Hnobody Hobj. rewrite object_run in Hobj. simpl in Hobj.
  unfold form_valid. unfold bind at 1. rewrite Hform. simpl.
  unfold bind at 1. rewrite object_run. simpl. rewrite Hobj.
  unfold bind at 1. simpl.
  assert (match user_id with
          | Some i => match us !! i with Some _ => Some i | None => None end
          | None => None
          end = None) as ->.
  { destruct user_id as [i|]; [|done]. by rewrite (Hnobody i eq_refl). }
  unfold bind, add_message, modify. simpl.
  destruct (inv_event request);
    eexists; (split; [reflexivity|]); simpl; by repeat split.
Qed.

Lemma failed_authentication_keeps_invitation_witness :
  ∃ w', form_valid invitation_visit "tokenone" nobody_logs_in world_invited
        = (Raise AttributeError, w')
    ∧ (object "tokenone" w').1 = Ok {| pk := Some 3; row := pending |}.
Proof.
  destruct (failed_authentication_keeps_invitation invitation_visit "tokenone"
              nobody_logs_in world_invited {[ 1 := alice; 2 := bob ]} None
              {| pk := Some 3; row := pending |})
    as (w' & Hrun & _ & _ & _ & _ & Hobj).
  - reflexivity.
  - discriminate.
  - vm_compute. reflexivity.
  - exists w'. by split.
Defined.

(** X15: the form is saved before the invitation is looked up.  With a
    code that resolves to no open invitation the handler raises [Http404]
    and changes no permission, but the user table is the one the form left:
    an account registered on the way stays. *)
Theorem unknown_code_raises_after_saving_form
    (request : InvitationRequest) (code : string) (form : UserForm) (w : World) :
  open_invitations code (permissions w) = ∅ →
  form_valid request code form w
  = (Raise Http404, upd_users (save_form form (users w)).1 w).
Proof.
  intros Hnone. unfold form_valid. unfold bind at 1. simpl.
  unfold bind at 1. rewrite object_run. simpl. rewrite Hnone.
  by rewrite (proj2 (get_object_or_404_Http404 ∅) eq_refl).
Qed.

Lemma unknown_code_raises_after_saving_form_witness :
  (form_valid invitation_visit "nosuchcode" dave_registers world_invited).1
  = Raise Http404
  ∧ users (form_valid invitation_visit "nosuchcode" dave_registers world_invited).2 !! 3
    = Some dave.
Proof.
  rewrite (unknown_code_raises_after_saving_form invitation_visit "nosuchcode"
             dave_registers world_invited); [by split|].
  vm_compute. reflexivity.
Defined.

(** Everything [InvitationView.form_valid] does on an accepted invitation. *)
Lemma invitation_accept_effects
    (request : InvitationRequest) (code : string) (form : UserForm) (w : World)
    (us : gmap nat User) (u : nat) (usr : User) (k : nat) (P : EventPermission) :
  save_form form (users w) = (us, Some u) →
  us !! u = Some usr →
  (object code w).1 = Ok {| pk := Some k; row := P |} →
  ∃ w', form_valid request code form w
        = (Ok (Redirect (url_orga_base (event P))), w')
    ∧ permissions w'
      = match first (held_by (event P) u (permissions w)) with
        | Some (q, Q) =>
            <[q := set_user (Some u) (merged_permission P Q)]>
              (delete k (<[q := merged_permission P Q]> (permissions w)))
        | None => <[k := set_user (Some u) P]> (permissions w)
        end
    ∧ users w' = us
    ∧ session w' = Some u
    ∧ actions w' = actions w ++ [("pretalx.invite.orga.accept", u)]
    ∧ messages w' = messages w ++ [{| level := Info; text := now_part_of_team |}]
    ∧ outbox w' = outbox w.
Proof.
  intros Hform Huser Hobj.
  destruct (object_Ok _ _ _ Hobj) as (k' & [= <-] & _ & HP & Hnone & _).
  simpl in HP, Hnone.
  rewrite <- (other_permissions_held u k P _ HP Hnone).
  rewrite object_run in Hobj. simpl in Hobj.
  unfold form_valid. unfold bind at 1. rewrite Hform. simpl.
  unfold bind at 1. rewrite object_run. simpl. rewrite Hobj.
  unfold bind at 1. simpl. rewrite Huser.
  unfold bind at 1. simpl.
  destruct (first _) as [[q Q]|]; simpl.
  - unfold merged_permission.
    destruct (is_orga P), (is_reviewer P);
      eexists; (split; [reflexivity|done]).
  - eexists. split; [reflexivity|]. done.
Qed.

(** The rows of the table after an accepted invitation, by event and
    holder. *)
Lemma accepted_holders
    (u k : nat) (P : EventPermission) (tbl : gmap nat EventPermission)
    (j : nat) (r : EventPermission) :
  tbl !! k = Some P → user P = None →
  match first (held_by (event P) u tbl) with
  | Some (q, Q) =>
      <[q := set_user (Some u) (merged_permission P Q)]>
        (delete k (<[q := merged_permission P Q]> tbl))
  | None => <[k := set_user (Some u) P]> tbl
  end !! j = Some r →
  (∃ r0, tbl !! j = Some r0 ∧ j ≠ k
         ∧ event r0 = event r ∧ user r0 = user r
         ∧ (r0 = r ∨ (event r = event P ∧ user r = Some u)))
  ∨ (j = k ∧ r = set_user (Some u) P ∧ held_by (event P) u tbl = ∅).
Proof.
  intros HP Hnone.
  destruct (first (held_by (event P) u tbl)) as [[q Q]|] eqn:Hfirst.
  - apply first_elem, map_lookup_filter_Some in Hfirst as [HQ [He Hu]].
    simpl in He, Hu.
    assert (q ≠ k) as Hqk by (intros ->; congruence).
    destruct (decide (j = q)) as [->|Hq].
    + rewrite lookup_insert_eq. intros [= <-]. left. exists Q.
      split; [done|]. split; [done|].
      assert (event (merged_permission P Q) = event Q) as Hev
        by (unfold merged_permission; by destruct (is_orga P), (is_reviewer P)).
      simpl. rewrite Hev. repeat split; try done. by right.
    + rewrite lookup_insert_ne by done.
      destruct (decide (j = k)) as [->|Hk]; [by rewrite lookup_delete_eq|].
      rewrite lookup_delete_ne, lookup_insert_ne by done.
      intros Hj. left. exists r. repeat split; try done. by left.
  - apply first_None in Hfirst.
    destruct (decide (j = k)) as [->|Hk].
    + rewrite lookup_insert_eq. intros [= <-]. by right.
    + rewrite lookup_insert_ne by done.
      intros Hj. left. exists r. repeat split; try done. by left.
Qed.

(** X16: accepting an invitation logs the user in, logs the acceptance
    for that user, shows one message and sends nothing; the user table is the
    one the form left.  In the permission table it changes no row other than
    the invitation itself and rows the accepting user holds for the event of
    the invitation. *)
Theorem acceptance_touches_own_rows_only
    (request : InvitationRequest) (code : string) (form : UserForm) (w : World)
    (us : gmap nat User) (u : nat) (usr : User) (k : nat) (P : EventPermission) :
  save_form form (users w) = (us, Some u) →
  us !! u = Some usr →
  (object code w).1 = Ok {| pk := Some k; row := P |} →
  ∃ w', form_valid request code form w
        = (Ok (Redirect (url_orga_base (event P))), w')
    ∧ users w' = us
    ∧ session w' = Some u
    ∧ actions w' = actions w ++ [("pretalx.invite.orga.accept", u)]
    ∧ messages w' = messages w ++ [{| level := Info; text := now_part_of_team |}]
    ∧ outbox w' = outbox w
    ∧ ∀ j r, permissions w !! j = Some r → j ≠ k →
             ¬ (event r = event P ∧ user r = Some u) →
             permissions w' !! j = Some r.
Proof.
  intros Hform Huser Hobj.
  destruct (invitation_accept_effects request _ _ _ _ _ _ _ _ Hform Huser Hobj)
    as (w' & Hrun & Htbl & Hus & Hses & Hact & Hmsg & Hout).
  exists w'. repeat split; try done.
  intros j r Hj Hjk Hother. rewrite Htbl.
  destruct (first (held_by (event P) u (permissions w))) as [[q Q]|] eqn:Hfirst.
  - apply first_elem, map_lookup_filter_Some in Hfirst as [HQ HQu].
    assert (j ≠ q) as Hjq.
    { intros ->. apply Hother. assert (r = Q) as -> by congruence. exact HQu. }
    by rewrite lookup_insert_ne, lookup_delete_ne, lookup_insert_ne.
  - by rewrite lookup_insert_ne.
Qed.

Lemma acceptance_touches_own_rows_only_witness :
  ∃ w', form_valid invitation_visit "tokenone" bob_logs_in world_invited
        = (Ok (Redirect (url_orga_base 1)), w')
    ∧ session w' = Some 2
    ∧ permissions w' !! 1 = Some alice_orga.
Proof.
  destruct (acceptance_touches_own_rows_only invitation_visit "tokenone" bob_logs_in
              world_invited {[ 1 := alice; 2 := bob ]} 2 bob 3 pending)
    as (w' & Hrun & _ & Hses & _ & _ & _ & Hframe).
  - reflexivity.
  - reflexivity.
  - vm_compute. reflexivity.
  - exists w'. split; [exact Hrun|]. split; [exact Hses|].
    apply Hframe; [reflexivity|discriminate|].
    intros [_ Hu]. discriminate.
Defined.

(** X17: accepting an invitation keeps the table free of duplicates: if
    every user holds at most one permission for every event before, the same
    is true afterwards. *)
Theorem acceptance_keeps_one_permission_per_user
    (request : InvitationRequest) (code : string) (form : UserForm) (w : World)
    (us : gmap nat User) (u : nat) (usr : User) (k : nat) (P : EventPermission) :
  save_form form (users w) = (us, Some u) →
  us !! u = Some usr →
  (object code w).1 = Ok {| pk := Some k; row := P |} →
  (∀ e' u', size (held_by e' u' (permissions w)) ≤ 1) →
  ∃ w', form_valid request code form w
        = (Ok (Redirect (url_orga_base (event P))), w')
    ∧ ∀ e' u', size (held_by e' u' (permissions w')) ≤ 1.
Proof.
  intros Hform Huser Hobj Hone.
  destruct (invitation_accept_effects request _ _ _ _ _ _ _ _ Hform Huser Hobj)
    as (w' & Hrun & Htbl & _).
  destruct (object_Ok _ _ _ Hobj) as (k' & [= <-] & _ & HP & Hnone & _).
  simpl in HP, Hnone.
  exists w'. split; [done|]. intros e' u'. apply size_le_1_keys.
  intros j1 j2 r1 r2 H1 H2.
  apply map_lookup_filter_Some in H1 as [H1 [He1 Hu1]].
  apply map_lookup_filter_Some in H2 as [H2 [He2 Hu2]].
  simpl in *. rewrite Htbl in H1, H2.
  pose proof (proj1 (size_le_1_keys _) (Hone e' u')) as Hkeys.
  destruct (accepted_holders u k P _ j1 r1 HP Hnone H1)
    as [(r1' & Hj1 & _ & He1' & Hu1' & _)|(-> & -> & Hempty1)];
    destruct (accepted_holders u k P _ j2 r2 HP Hnone H2)
      as [(r2' & Hj2 & _ & He2' & Hu2' & _)|(-> & -> & Hempty2)].
  - eapply Hkeys; apply map_lookup_filter_Some; split; try done;
      simpl; split; congruence.
  - exfalso. simpl in *. injection Hu2 as <-.
    assert (held_by (event P) u (permissions w) !! j1 = Some r1') as Hin
      by (apply map_lookup_filter_Some; split; [done|]; simpl; split; congruence).
    by rewrite Hempty2, lookup_empty in Hin.
  - exfalso. simpl in *. injection Hu1 as <-.
    assert (held_by (event P) u (permissions w) !! j2 = Some r2') as Hin
      by (apply map_lookup_filter_Some; split; [done|]; simpl; split; congruence).
    by rewrite Hempty1, lookup_empty in Hin.
  - done.
Qed.

Lemma acceptance_keeps_one_permission_per_user_witness :
  ∃ w', form_valid invitation_visit "tokenone" bob_logs_in world_invited
        = (Ok (Redirect (url_orga_base 1)), w')
    ∧ size (held_by 1 2 (permissions w')) ≤ 1.
Proof.
  destruct (acceptance_keeps_one_permission_per_user invitation_visit "tokenone"
              bob_logs_in world_invited {[ 1 := alice; 2 := bob ]} 2 bob 3
              pending)
    as (w' & Hrun & Hone).
  - reflexivity.
  - reflexivity.
  - vm_compute. reflexivity.
  - intros e' u'. apply size_le_1_keys. intros j1 j2 r1 r2 H1 H2.
    apply map_lookup_filter_Some in H1 as [H1 [He1 Hu1]].
    apply map_lookup_filter_Some in H2 as [H2 [He2 Hu2]].
    simpl in *.
    assert (∀ j r, permissions world_invited !! j = Some r →
              (j = 1 ∧ r = alice_orga) ∨ (j = 2 ∧ r = bob_reviewer)
              ∨ (j = 3 ∧ r = pending)) as Hrows.
    { intros j r. unfold world_invited. simpl.
      rewrite !lookup_insert_Some, lookup_singleton_Some.
      intros [[<- <-]|[_ [[<- <-]|[_ [<- <-]]]]]; auto. }
    destruct (Hrows _ _ H1) as [[-> ->]|[[-> ->]|[-> ->]]];
      destruct (Hrows _ _ H2) as [[-> ->]|[[-> ->]|[-> ->]]];
      simpl in *; congruence.
  - exists w'. split; [exact Hrun|apply Hone].
Defined.

(** X18: the flags of an accepted invitation are never lost.  Whatever
    else the user holds, after the acceptance the user holds a permission for
    the event of the invitation that is an organizer permission if the
    invitation was one and a reviewer permission if the invitation was one;
    the invitation itself no longer resolves. *)
Theorem accepted_flags_are_granted
    (request : InvitationRequest) (code : string) (form : UserForm) (w : World)
    (us : gmap nat User) (u : nat) (usr : User) (k : nat) (P : EventPermission) :
  save_form form (users w) = (us, Some u) →
  us !! u = Some usr →
  (object code w).1 = Ok {| pk := Some k; row := P |} →
  ∃ w' j r, form_valid request code form w
            = (Ok (Redirect (url_orga_base (event P))), w')
    ∧ permissions w' !! j = Some r
    ∧ event r = event P ∧ user r = Some u
    ∧ (is_orga P = true → is_orga r = true)
    ∧ (is_reviewer P = true → is_reviewer r = true).
Proof.
  intros Hform Huser Hobj.
  destruct (invitation_accept_effects request _ _ _ _ _ _ _ _ Hform Huser Hobj)
    as (w' & Hrun & Htbl & _).
  exists w'.
  destruct (first (held_by (event P) u (permissions w))) as [[q Q]|] eqn:Hfirst.
  - apply first_elem, map_lookup_filter_Some in Hfirst as [HQ [He Hu]].
    simpl in He, Hu.
    exists q, (set_user (Some u) (merged_permission P Q)).
    split; [done|]. split; [rewrite Htbl; apply lookup_insert_eq|].
    unfold merged_permission.
    destruct (is_orga P), (is_reviewer P); simpl; repeat split; try done.
  - exists k, (set_user (Some u) P).
    split; [done|]. split; [rewrite Htbl; apply lookup_insert_eq|].
    by repeat split.
Qed.

Lemma accepted_flags_are_granted_witness :
  ∃ w' j r, form_valid invitation_visit "tokenone" bob_logs_in world_invited
            = (Ok (Redirect (url_orga_base 1)), w')
    ∧ permissions w' !! j = Some r
    ∧ user r = Some 2 ∧ is_orga r = true.
Proof.
  destruct (accepted_flags_are_granted invitation_visit "tokenone" bob_logs_in
              world_invited {[ 1 := alice; 2 := bob ]} 2 bob 3 pending)
    as (w' & j & r & Hrun & Hrow & _ & Hu & Horga & _).
  - reflexivity.
  - reflexivity.
  - vm_compute. reflexivity.
  - exists w', j, r. repeat split; try done. by apply Horga.
Defined.

End InvitationMore.
